(** * Swap bundler: the on-chain executor and the off-chain helpers

    A shallow embedding of
    - [contracts/SwapBundler.sol] (module [Bundler]),
    - [scripts/utils/swap-helpers.js] (module [SwapHelpers]),
    - the route and quote stages of [scripts/swap-with-bundler.js]
      (module [Orchestrator]),
    followed by the properties established about them. *)

From Stdlib Require Import NArith ZArith List String Ascii Bool Lia.
Import ListNotations.

(* ===================================================================== *)
(** * The contract [SwapBundler]                                          *)
(* ===================================================================== *)

Module Bundler.

Local Open Scope N_scope.

(** [uint256] values are naturals below [2^256]; Solidity 0.8 arithmetic is
    checked, so an operation leaving the range raises [Panic(0x11)]. *)
Definition MAX_UINT256 : N := 2 ^ 256 - 1.

Arguments MAX_UINT256 : simpl never.

(** An [address] is a 160-bit number; [address(0)] is [0]. *)
Definition address : Type := N.

(** [SimpleSwapRouter.ExactInputSingleParams]: the struct is declared in the
    router, the fields are the ones the scripts fill in. *)
Record ExactInputSingleParams : Type := mkParams {
  tokenIn : address;
  tokenOut : address;
  fee : N;
  recipient : address;
  deadline : N;
  amountIn : N;
  amountOutMinimum : N;
  sqrtPriceLimitX96 : N
}.

(** The transaction context a function body reads. *)
Record Env : Type := mkEnv {
  msg_sender : address;
  msg_value : N;
  block_timestamp : N;
  block_number : N;
  this_address : address
}.

(** What the contract does to the outside during one call, in program order:
    calls to other contracts, ETH sent, events emitted. *)
Inductive Action : Type :=
| RouterCall (pool weth : address) (params : ExactInputSingleParams) (value : N)
| TokenBalanceOf (token owner : address)
| TokenTransfer (token to : address) (amount : N)
| EthTransfer (to : address) (amount : N)
| EmitSwapBundled (user tokenIn' tokenOut' : address)
                  (amountIn' amountOut : N) (bundleId : N).

Inductive SolError : Type :=
| Revert (reason : string)
| Panic (code : N)
| CalleeReverted
| RevertNoData.

Inductive result (A : Type) : Type :=
| Ok (a : A)
| Err (e : SolError).

Arguments Ok {A} a.
Arguments Err {A} e.

(** The contracts the bundler talks to are not part of it: the router, the
    ERC-20 tokens, the receivers of ETH.  Each is an operation on an opaque
    [World]; [None] is a call that reverts. *)
Class Externals (World : Type) : Type := {
  router_exactInputSingleWithETH :
    World -> address -> address -> ExactInputSingleParams -> N -> option (N * World);
  erc20_safeTransfer : World -> address -> address -> N -> option World;
  erc20_balanceOf : World -> address -> address -> option N;
  eth_transfer : World -> address -> N -> option World;
  eth_balance : World -> address -> N;
  keccak256_packed : N -> N -> address -> N -> N
}.

Section Contract.

Context {World : Type} `{Externals World}.

(** A function body: from the world before, the actions attempted (kept also
    when the call reverts, to tell how far it got) and either a value with
    the world after, or the error that rolls everything back. *)
Definition Sol (A : Type) : Type := World -> list Action * result (A * World).

Definition ret {A} (a : A) : Sol A := fun w => ([], Ok (a, w)).

Definition bind {A B} (m : Sol A) (k : A -> Sol B) : Sol B :=
  fun w =>
    match m w with
    | (t, Err e) => (t, Err e)
    | (t, Ok (a, w1)) => let (t', r) := k a w1 in (t ++ t', r)
    end.

Definition fail {A} (e : SolError) : Sol A := fun _ => ([], Err e).

Definition require (cond : bool) (reason : string) : Sol unit :=
  if cond then ret tt else fail (Revert reason).

Definition checked_add (a b : N) : Sol N :=
  if a + b <=? MAX_UINT256 then ret (a + b) else fail (Panic 17).

Definition checked_sub (a b : N) : Sol N :=
  if b <=? a then ret (a - b) else fail (Panic 17).

Definition checked_mul (a b : N) : Sol N :=
  if a * b <=? MAX_UINT256 then ret (a * b) else fail (Panic 17).

Definition call_router (pool weth : address) (params : ExactInputSingleParams)
  (value : N) : Sol N :=
  fun w =>
    ([RouterCall pool weth params value],
     match router_exactInputSingleWithETH w pool weth params value with
     | Some (amountOut, w') => Ok (amountOut, w')
     | None => Err CalleeReverted
     end).

Definition safeTransfer (token to : address) (amount : N) : Sol unit :=
  fun w =>
    ([TokenTransfer token to amount],
     match erc20_safeTransfer w token to amount with
     | Some w' => Ok (tt, w')
     | None => Err CalleeReverted
     end).

Definition balanceOf (token owner : address) : Sol N :=
  fun w =>
    ([TokenBalanceOf token owner],
     match erc20_balanceOf w token owner with
     | Some b => Ok (b, w)
     | None => Err CalleeReverted
     end).

(** [payable(to).transfer(amount)] *)
Definition transfer (to : address) (amount : N) : Sol unit :=
  fun w =>
    ([EthTransfer to amount],
     match eth_transfer w to amount with
     | Some w' => Ok (tt, w')
     | None => Err CalleeReverted
     end).

Definition self_balance (env : Env) : Sol N :=
  fun w => ([], Ok (eth_balance w (this_address env), w)).

Definition emit (a : Action) : Sol unit := fun w => ([a], Ok (tt, w)).

Notation "x <- m ;; k" := (bind m (fun x => k))
  (at level 61, m at next level, right associativity).
Notation "m ;; k" := (bind m (fun _ => k))
  (at level 61, right associativity).

(** ** [bundleSwap] *)
Definition bundleSwap (env : Env) (pool weth : address)
  (params : ExactInputSingleParams) : Sol N :=
  require (0 <? msg_value env) "Must send ETH" ;;
  require (tokenIn params =? weth) "tokenIn must be WETH" ;;
  let bundleId :=
    keccak256_packed (block_timestamp env) (block_number env)
                     (msg_sender env) (amountIn params) in
  amountOut <- call_router pool weth params (msg_value env) ;;
  emit (EmitSwapBundled (msg_sender env) (tokenIn params) (tokenOut params)
                        (amountIn params) amountOut bundleId) ;;
  ret amountOut.

(** ** [bundleSwaps] *)

(** First loop: [totalValue += swaps[i].amountIn]. *)
Fixpoint sumLoop (swaps : list ExactInputSingleParams) (totalValue : N) : Sol N :=
  match swaps with
  | [] => ret totalValue
  | s :: rest =>
      totalValue' <- checked_add totalValue (amountIn s) ;;
      sumLoop rest totalValue'
  end.

(** Second loop: one leg per iteration; [results] holds the slots already
    written, [remainingValue] the running remainder. *)
Fixpoint legsLoop (pool weth : address) (swaps : list ExactInputSingleParams)
  (results : list N) (remainingValue : N) : Sol (list N * N) :=
  match swaps with
  | [] => ret (results, remainingValue)
  | s :: rest =>
      require (tokenIn s =? weth) "tokenIn must be WETH" ;;
      r <- call_router pool weth s (amountIn s) ;;
      (if negb (tokenOut s =? 0)
       then safeTransfer (tokenOut s) (recipient s) r
       else ret tt) ;;
      remainingValue' <- checked_sub remainingValue (amountIn s) ;;
      legsLoop pool weth rest (results ++ [r]) remainingValue'
  end.

Definition bundleSwaps (env : Env) (pool weth : address)
  (swaps : list ExactInputSingleParams) : Sol (list N) :=
  require (0 <? N.of_nat (List.length swaps)) "No swaps provided" ;;
  totalValue <- sumLoop swaps 0 ;;
  require (totalValue <=? msg_value env) "Insufficient ETH" ;;
  lr <- legsLoop pool weth swaps [] (msg_value env) ;;
  (if 0 <? snd lr then transfer (msg_sender env) (snd lr) else ret tt) ;;
  ret (fst lr).

(** ** [bundleSwapWithObfuscation] *)

(** [for (uint256 i = 0; i < dummyOps && i < 10; i++)]: the second conjunct
    stops the loop after ten rounds, so ten units of fuel are never used up
    before the condition fails. *)
Fixpoint dummyLoop (fuel : nat) (env : Env) (dummyOps i : N) : Sol unit :=
  match fuel with
  | O => ret tt
  | S fuel' =>
      if (i <? dummyOps) && (i <? 10) then
        dummy <- checked_add (block_timestamp env) i ;;
        _ <- checked_mul dummy 2 ;;
        dummyLoop fuel' env dummyOps (i + 1)
      else ret tt
  end.

Definition bundleSwapWithObfuscation (env : Env) (pool weth : address)
  (params : ExactInputSingleParams) (dummyOps : N) : Sol N :=
  dummyLoop 10 env dummyOps 0 ;;
  require (0 <? msg_value env) "Must send ETH" ;;
  require (tokenIn params =? weth) "tokenIn must be WETH" ;;
  let bundleId :=
    keccak256_packed (block_timestamp env) (block_number env)
                     (msg_sender env) (amountIn params) in
  amountOut <- call_router pool weth params (msg_value env) ;;
  (if negb (tokenOut params =? 0)
   then safeTransfer (tokenOut params) (recipient params) amountOut
   else ret tt) ;;
  emit (EmitSwapBundled (msg_sender env) (tokenIn params) (tokenOut params)
                        (amountIn params) amountOut bundleId) ;;
  ret amountOut.

(** ** [withdraw]

    The function is not payable: the check the compiler puts in front of the
    body reverts, without data, a call that carries value.  Nothing in the
    body reads [msg.sender]. *)
Definition withdraw (env : Env) (token to : address) : Sol unit :=
  (if 0 <? msg_value env then fail RevertNoData else ret tt) ;;
  require (negb (to =? 0)) "Invalid recipient" ;;
  if token =? 0 then
    bal <- self_balance env ;;
    transfer to bal
  else
    balance <- balanceOf token (this_address env) ;;
    if 0 <? balance then safeTransfer token to balance else ret tt.

(** ** Observations on a trace *)

Definition is_token_transfer (a : Action) : bool :=
  match a with TokenTransfer _ _ _ => true | _ => false end.

Definition is_router_call (a : Action) : bool :=
  match a with RouterCall _ _ _ _ => true | _ => false end.

Definition is_eth_transfer (a : Action) : bool :=
  match a with EthTransfer _ _ => true | _ => false end.

(** ETH the call sent to [who]. *)
Fixpoint eth_sent_to (who : address) (t : list Action) : N :=
  match t with
  | [] => 0
  | EthTransfer to amount :: rest =>
      (if to =? who then amount else 0) + eth_sent_to who rest
  | _ :: rest => eth_sent_to who rest
  end.

Definition sum_amountIn (swaps : list ExactInputSingleParams) : N :=
  fold_right (fun s acc => amountIn s + acc) 0 swaps.

(** What one successful leg of the batch does: the router call and, unless
    the output token is the zero address, the forwarding of the output. *)
Definition forwarding (sr : ExactInputSingleParams * N) : list Action :=
  let (s, r) := sr in
  if negb (tokenOut s =? 0) then [TokenTransfer (tokenOut s) (recipient s) r] else [].

Definition leg_actions (pool weth : address)
  (sr : ExactInputSingleParams * N) : list Action :=
  RouterCall pool weth (fst sr) (amountIn (fst sr)) :: forwarding sr.

Definition refund_actions (who : address) (amount : N) : list Action :=
  if 0 <? amount then [EthTransfer who amount] else [].

Definition is_event (a : Action) : bool :=
  match a with EmitSwapBundled _ _ _ _ _ _ => true | _ => false end.

Definition is_balance_read (a : Action) : bool :=
  match a with TokenBalanceOf _ _ => true | _ => false end.

(** The two kinds of action a batch leg is made of. *)
Definition leg_action (a : Action) : Prop :=
  is_router_call a = true \/ is_token_transfer a = true.

(** ETH the call attached to its router calls. *)
Fixpoint eth_sent_to_router (t : list Action) : N :=
  match t with
  | [] => 0
  | RouterCall _ _ _ value :: rest => value + eth_sent_to_router rest
  | _ :: rest => eth_sent_to_router rest
  end.

End Contract.

End Bundler.

(* ===================================================================== *)
(** * The helpers of [scripts/utils/swap-helpers.js]                      *)
(* ===================================================================== *)

Module SwapHelpers.

Local Open Scope string_scope.
Local Open Scope Z_scope.
Local Open Scope list_scope.

(** ** JavaScript values and completions *)

Inductive JsError : Type :=
| Error (message : string)
| RangeError (message : string)
| TransportError (message : string)
| CallException (message : string).

Definition message (e : JsError) : string :=
  match e with
  | Error m | RangeError m | TransportError m | CallException m => m
  end.

Inductive Console : Type :=
| ConsoleLog (line : string)
| ConsoleWarn (line : string)
| ConsoleError (line : string).

(** How a piece of script ends: with a value, with an exception in flight, or
    with [process.exit(code)]. *)
Inductive Completion (A : Type) : Type :=
| Return (a : A)
| Throw (e : JsError)
| Exit (code : Z).

Arguments Return {A} a.
Arguments Throw {A} e.
Arguments Exit {A} code.

(** A script fragment: the console lines it wrote and how it ended. *)
Definition Js (A : Type) : Type := (list Console * Completion A)%type.

Definition ret {A} (a : A) : Js A := ([], Return a).

Definition bind {A B} (m : Js A) (k : A -> Js B) : Js B :=
  match m with
  | (out, Return a) => let (out', c) := k a in (out ++ out', c)
  | (out, Throw e) => (out, Throw e)
  | (out, Exit code) => (out, Exit code)
  end.

Definition throw {A} (e : JsError) : Js A := ([], Throw e).

Definition process_exit {A} (code : Z) : Js A := ([], Exit code).

(** [try { body } catch (e) { handler }] *)
Definition try_catch {A} (body : Js A) (handler : JsError -> Js A) : Js A :=
  match body with
  | (out, Throw e) => let (out', c) := handler e in (out ++ out', c)
  | done => done
  end.

Definition console_log (line : string) : Js unit := ([ConsoleLog line], Return tt).
Definition console_warn (line : string) : Js unit := ([ConsoleWarn line], Return tt).
Definition console_error (line : string) : Js unit := ([ConsoleError line], Return tt).

(** [await p] for a promise that settles with a value or a rejection. *)
Definition await {A} (p : A + JsError) : Js A :=
  match p with
  | inl a => ret a
  | inr e => throw e
  end.

Notation "x <- m ;; k" := (bind m (fun x => k))
  (at level 61, m at next level, right associativity).
Notation "m ;; k" := (bind m (fun _ => k))
  (at level 61, right associativity).

(** A JavaScript number as far as [BigInt(x)] tells numbers apart: an integer,
    or anything else ([NaN], an infinity, a fraction), on which it throws a
    [RangeError].  The engine's message names the number, which
    [JsNonInteger] does not keep: the text below stands for it, and only the
    kind of the error is relied on. *)
Inductive JsNumber : Type :=
| JsInt (z : Z)
| JsNonInteger.

Definition BigInt (x : JsNumber) : Js Z :=
  match x with
  | JsInt z => ret z
  | JsNonInteger => throw (RangeError "The number cannot be converted to a BigInt")
  end.

(** The result of a property read such as [obj[key]]. *)
Inductive JsValue : Type :=
| JsUndefined
| JsNull
| JsString (s : string)
| JsObject.

Definition truthy (v : JsValue) : bool :=
  match v with
  | JsUndefined | JsNull => false
  | JsString s => negb (s =? "")%string
  | JsObject => true
  end.

(** ** Strings: [toLowerCase] and [includes] on ASCII text *)

Definition lower_ascii (c : ascii) : ascii :=
  let n := N_of_ascii c in
  if (65 <=? n)%N && (n <=? 90)%N then ascii_of_N (n + 32) else c.

Fixpoint toLowerCase (s : string) : string :=
  match s with
  | EmptyString => EmptyString
  | String c rest => String (lower_ascii c) (toLowerCase rest)
  end.

Fixpoint includes (s sub : string) : bool :=
  if prefix sub s then true
  else match s with
       | EmptyString => false
       | String _ rest => includes rest sub
       end.

(** ** [PRIVATE_RPC_ENDPOINTS] *)

Definition flashtrades : list (string * JsValue) :=
  [("sepolia", JsNull); ("mainnet", JsString "https://rpc.flashbots.net")].

Definition flashbots : list (string * JsValue) :=
  [("mainnet", JsString "https://rpc.flashbots.net")].

Definition eden : list (string * JsValue) :=
  [("mainnet", JsString "https://api.edennetwork.io/v1/rpc")].

(** Names every object literal inherits from [Object.prototype]. *)
Definition Object_prototype_keys : list string :=
  ["constructor"; "__proto__"; "hasOwnProperty"; "isPrototypeOf";
   "propertyIsEnumerable"; "toLocaleString"; "toString"; "valueOf";
   "__defineGetter__"; "__defineSetter__"; "__lookupGetter__"; "__lookupSetter__"].

Fixpoint own_property (obj : list (string * JsValue)) (key : string) : option JsValue :=
  match obj with
  | [] => None
  | (k, v) :: rest => if (k =? key)%string then Some v else own_property rest key
  end.

(** [obj[key]]: an own property, else an inherited one, else [undefined]. *)
Definition get_property (obj : list (string * JsValue)) (key : string) : JsValue :=
  match own_property obj key with
  | Some v => v
  | None =>
      if existsb (fun k => (k =? key)%string) Object_prototype_keys
      then JsObject else JsUndefined
  end.

(** ** [calculateMinOutput]

    [expectedOutput] is a bigint or [null]; bigint division truncates. *)
Definition calculateMinOutput (expectedOutput : option Z) (slippageBps : JsNumber) : Js Z :=
  match expectedOutput with
  | None => ret 0
  | Some q =>
      if q =? 0 then ret 0
      else
        bps <- BigInt slippageBps ;;
        let slippageMultiplier := 10000 - bps in
        let minOutput := Z.quot (q * slippageMultiplier) 10000 in
        ret minOutput
  end.

(** The call that leaves [slippageBps] out takes the default, 100. *)
Definition calculateMinOutput_default (expectedOutput : option Z) : Js Z :=
  calculateMinOutput expectedOutput (JsInt 100).

(** ** [isProductionNetwork], [isPrivateRPC], [getPrivateRPCUrl] *)

Definition isProductionNetwork (chainId : Z) : bool := chainId =? 1.

Definition isPrivateRPC (rpcUrl : string) : bool :=
  if (rpcUrl =? "")%string then false
  else
    let url := toLowerCase rpcUrl in
    includes url "flashbots" || includes url "flashtrades" ||
    includes url "eden" || includes url "bloxroute" ||
    includes url "private" || includes url "protect".

Definition getPrivateRPCUrl (network : string) : JsValue :=
  let networkName := toLowerCase network in
  if truthy (get_property flashtrades networkName) then
    get_property flashtrades networkName
  else if (networkName =? "mainnet")%string && truthy (get_property flashbots "mainnet") then
    get_property flashbots "mainnet"
  else if (networkName =? "mainnet")%string && truthy (get_property eden "mainnet") then
    get_property eden "mainnet"
  else JsNull.

(** How a value prints inside a template literal.  [JsObject] stands for
    every inherited member alike and prints as a plain object does; an
    inherited function prints as its source text instead, which is not told
    apart here. *)
Definition to_template (v : JsValue) : string :=
  match v with
  | JsUndefined => "undefined"
  | JsNull => "null"
  | JsString s => s
  | JsObject => "[object Object]"
  end.

(** ** [enforcePrivateRPC]

    [getNetwork] is the outcome of [provider.getNetwork()], already reduced to
    the chain id.  Pictographs and line breaks at the ends of console lines
    are left out. *)
Definition enforcePrivateRPC (getNetwork : Z + JsError) (network rpcUrl : string) : Js bool :=
  chainId <- await getNetwork ;;
  let isProduction := isProductionNetwork chainId in
  let networkName := toLowerCase network in
  if (networkName =? "sepolia")%string && negb (isPrivateRPC rpcUrl) then
    console_log "  Sepolia: Using bundler + slippage protection for MEV mitigation" ;;
    console_log "     (Private RPC not available for Sepolia, but bundler provides protection)" ;;
    ret false
  else if isProduction then
    let isPrivate := isPrivateRPC rpcUrl in
    if negb isPrivate then
      let privateRPC := getPrivateRPCUrl network in
      if truthy privateRPC then
        console_error "PRODUCTION NETWORK DETECTED!" ;;
        console_error "   Private RPC is REQUIRED for production networks." ;;
        console_error ("   Current RPC: " ++ rpcUrl)%string ;;
        console_error ("   Recommended: " ++ to_template privateRPC)%string ;;
        console_error "   Set in .env:" ;;
        console_error ("   ETH_RPC_URL=" ++ to_template privateRPC)%string ;;
        console_error "   (or use PRIVATE_RPC_URL for FlashTrades/Flashbots)" ;;
        throw (Error "Private RPC required for production network")
      else
        console_warn "PRODUCTION NETWORK DETECTED!" ;;
        console_warn "   Private RPC is recommended but not configured." ;;
        console_warn "   Your transactions will be visible in public mempool." ;;
        console_warn "   Consider using FlashTrades, Flashbots Protect, or Eden Network." ;;
        ret (isPrivateRPC rpcUrl)
    else
      console_log "  Using private RPC for production network" ;;
      ret true
  else ret (isPrivateRPC rpcUrl).

(** ** The chain reads behind [getSwapQuote] *)

(** What the provider answers to each contract read: a value, or a rejection. *)
Record Provider : Type := mkProvider {
  quoteExactInputSingle :
    string -> string -> string -> Z -> Z -> Z -> Z + JsError;
  slot0_sqrtPriceX96 : string -> Z + JsError;
  token0 : string -> string + JsError
}.

Section Quote.

(** [Math.floor(Number(amountIn) * price)] and [Math.floor(Number(amountIn) /
    price)] with [price = (Number(sqrtPriceX96) / 2**96) ** 2] are
    double-precision computations; they are taken as given.  The outcome is
    an integer, or not a finite number. *)
Variable floor_times_price : Z -> Z -> JsNumber.
Variable floor_over_price : Z -> Z -> JsNumber.

Definition getQuoteFromPool (poolAddress tokenIn tokenOut : string) (amountIn : Z)
  (provider : Provider) : Js (option Z) :=
  try_catch
    (sqrtPriceX96 <- await (slot0_sqrtPriceX96 provider poolAddress) ;;
     token0' <- await (token0 provider poolAddress) ;;
     let zeroForOne := (toLowerCase token0' =? toLowerCase tokenIn)%string in
     amountOut <- (if zeroForOne
                   then BigInt (floor_times_price amountIn sqrtPriceX96)
                   else BigInt (floor_over_price amountIn sqrtPriceX96)) ;;
     ret (Some amountOut))
    (fun _ => ret None).

(** [QUOTER_V2] is [process.env.QUOTER_V2_ADDRESS]: a string, or unset. *)
Definition getSwapQuote (QUOTER_V2 : option string)
  (pool tokenIn tokenOut : string) (amountIn fee : Z) (provider : Provider)
  : Js (option Z) :=
  try_catch
    (match QUOTER_V2 with
     | Some quoter =>
         if negb (quoter =? "")%string then
           try_catch
             (amountOut <- await (quoteExactInputSingle provider quoter
                                    tokenIn tokenOut fee amountIn 0) ;;
              ret (Some amountOut))
             (fun _ => getQuoteFromPool pool tokenIn tokenOut amountIn provider)
         else getQuoteFromPool pool tokenIn tokenOut amountIn provider
     | None => getQuoteFromPool pool tokenIn tokenOut amountIn provider
     end)
    (fun _ =>
       console_warn "  Could not get quote, using 0 as minimum" ;;
       ret None).

End Quote.

(** ** [createPrivateProvider]

    [customRPC] is a string or [null] (the default).
    [newJsonRpcProvider] is [new ethers.JsonRpcProvider(value)], which hands
    back a provider or throws; it is given whatever value was chosen, a string
    or not. *)
Definition createPrivateProvider {P : Type}
  (newJsonRpcProvider : JsValue -> P + JsError)
  (network : string) (customRPC : JsValue) : Js (option P) :=
  let privateRPC := if truthy customRPC then customRPC else getPrivateRPCUrl network in
  if negb (truthy privateRPC) then ret None
  else
    provider <- await (newJsonRpcProvider privateRPC) ;;
    ret (Some provider).

(** The words [isPrivateRPC] looks for. *)
Definition private_keywords : list string :=
  ["flashbots"; "flashtrades"; "eden"; "bloxroute"; "private"; "protect"].

End SwapHelpers.

(* ===================================================================== *)
(** * Two stages of the bundled-swap script                               *)
(* ===================================================================== *)

Module Orchestrator.

Import SwapHelpers.

Local Open Scope string_scope.
Local Open Scope Z_scope.
Local Open Scope list_scope.

Notation "x <- m ;; k" := (SwapHelpers.bind m (fun x => k))
  (at level 61, m at next level, right associativity).
Notation "m ;; k" := (SwapHelpers.bind m (fun _ => k))
  (at level 61, right associativity).

(** The route stage of [main]:
    [try { result = await enforcePrivateRPC(...) ; isPrivate = result }
     catch (error) { console.error(error.message); process.exit(1) }].
    [enforcePrivateRPC] only ever returns a boolean, so the branch for a
    string result is never taken. *)
Definition routeStage (getNetwork : Z + JsError) (network rpcUrl : string) : Js bool :=
  try_catch
    (result <- enforcePrivateRPC getNetwork network rpcUrl ;;
     ret result)
    (fun error => console_error (message error) ;; process_exit 1).

Section QuoteStage.

Variable floor_times_price : Z -> Z -> JsNumber.
Variable floor_over_price : Z -> Z -> JsNumber.

(** [ethers.formatUnits(value, decimals)] and [(SLIPPAGE_BPS / 100).toFixed(2)]
    only shape console lines. *)
Variable formatUnits : Z -> Z -> string.
Variable percent : JsNumber -> string.

(** The quote stage of [main]: from the quote to [minAmountOut]. *)
Definition quoteStage (QUOTER_V2 : option string)
  (POOL_ADDRESS WETH_ADDRESS USDC_ADDRESS : string) (amountIn POOL_FEE : Z)
  (SLIPPAGE_BPS : JsNumber) (usdcDecimals : Z) (usdcSymbol : string)
  (provider : Provider) : Js Z :=
  console_log "Getting swap quote..." ;;
  expectedOutput <- getSwapQuote floor_times_price floor_over_price QUOTER_V2
                      POOL_ADDRESS WETH_ADDRESS USDC_ADDRESS amountIn POOL_FEE provider ;;
  minAmountOut <-
    match expectedOutput with
    | Some q =>
        if negb (q =? 0) && (0 <? q) then
          minAmountOut <- calculateMinOutput (Some q) SLIPPAGE_BPS ;;
          console_log ("  Expected Output: " ++ formatUnits q usdcDecimals
                         ++ " " ++ usdcSymbol)%string ;;
          console_log ("  Minimum Output (" ++ percent SLIPPAGE_BPS ++ "% slippage): "
                         ++ formatUnits minAmountOut usdcDecimals
                         ++ " " ++ usdcSymbol)%string ;;
          ret minAmountOut
        else
          console_log "  Could not get quote, using 0 as minimum (no slippage protection)" ;;
          ret 0
    | None =>
        console_log "  Could not get quote, using 0 as minimum (no slippage protection)" ;;
        ret 0
    end ;;
  console_log "" ;;
  ret minAmountOut.

End QuoteStage.

Section SubmitStage.

(** A submitted transaction and a connected provider, as handed back by the
    library. *)
Variable Tx : Type.
Variable RpcProvider : Type.

(** [new ethers.JsonRpcProvider(url)]. *)
Variable newJsonRpcProvider : string -> RpcProvider + JsError.

(** Through the private provider: the wallet built from the key, the bundler
    bound to it, and its [bundleSwap] call, one after the other. *)
Variable sendPrivate : RpcProvider -> string -> Tx + JsError.

(** [bundler.bundleSwap(...)] on the script's own signer. *)
Variable sendStandard : Tx + JsError.

(** The submission of [main].  [privateRPCUrl] is the variable of that name
    ([null] unless the route stage set it), [PRIVATE_RPC_URL] and
    [PRIVATE_KEY] are the environment entries. *)
Definition submitStage (privateRPCUrl : option string) (PRIVATE_RPC_URL : string)
  (PRIVATE_KEY : option string) : Js Tx :=
  let finalPrivateRPC :=
    match privateRPCUrl with
    | Some url => if negb (url =? "")%string then url else PRIVATE_RPC_URL
    | None => PRIVATE_RPC_URL
    end in
  if negb (finalPrivateRPC =? "")%string && isPrivateRPC finalPrivateRPC then
    console_log "  Using private RPC for transaction submission..." ;;
    console_log ("  RPC: " ++ substring 0 60 finalPrivateRPC ++ "...")%string ;;
    try_catch
      (privateProvider <- await (newJsonRpcProvider finalPrivateRPC) ;;
       privateKey <-
         match PRIVATE_KEY with
         | Some key =>
             if negb (key =? "")%string then ret key
             else throw (Error "Private key not found. Set PRIVATE_KEY in .env")
         | None => throw (Error "Private key not found. Set PRIVATE_KEY in .env")
         end ;;
       await (sendPrivate privateProvider privateKey))
      (fun rpcError =>
         console_log "  Private RPC failed, falling back to standard RPC" ;;
         console_log ("  Error: " ++ message rpcError)%string ;;
         await sendStandard)
  else
    console_log "  Using standard RPC with bundler + slippage protection" ;;
    console_log "     (Bundler hides address, slippage protects from MEV)" ;;
    await sendStandard.

End SubmitStage.

End Orchestrator.

(* ===================================================================== *)
(** * Simulated collaborators                                             *)
(* ===================================================================== *)

Module Sim.

Import Bundler.

Local Open Scope N_scope.

(** A simulated chain seen from the bundler: the ETH and the output tokens the
    bundler holds, and one address that refuses ETH (a contract with no
    [receive]).  The router takes the value it is sent and reports
    [rate] output units per unit of input; it credits the recipient itself. *)
Record World : Type := mkWorld {
  eth_held : N;
  tokens_held : N;
  rate : N;
  refuses_eth : address
}.

Definition sim_router (w : World) (pool weth : address)
  (p : ExactInputSingleParams) (value : N) : option (N * World) :=
  if value <=? eth_held w
  then Some (value * rate w,
             mkWorld (eth_held w - value) (tokens_held w) (rate w) (refuses_eth w))
  else None.

Definition sim_safeTransfer (w : World) (token to : address) (amount : N) : option World :=
  if amount <=? tokens_held w
  then Some (mkWorld (eth_held w) (tokens_held w - amount) (rate w) (refuses_eth w))
  else None.

Definition sim_balanceOf (w : World) (token owner : address) : option N :=
  Some (tokens_held w).

Definition sim_eth_transfer (w : World) (to : address) (amount : N) : option World :=
  if (to =? refuses_eth w) || negb (amount <=? eth_held w) then None
  else Some (mkWorld (eth_held w - amount) (tokens_held w) (rate w) (refuses_eth w)).

Definition sim_keccak (timestamp number : N) (sender : address) (amount : N) : N :=
  (timestamp * 31 + number * 17 + sender * 7 + amount) mod 2 ^ 256.

#[export] Instance sim_externals : Externals World := {
  router_exactInputSingleWithETH := sim_router;
  erc20_safeTransfer := sim_safeTransfer;
  erc20_balanceOf := sim_balanceOf;
  eth_transfer := sim_eth_transfer;
  eth_balance := fun w _ => eth_held w;
  keccak256_packed := sim_keccak
}.

Definition WETH : address := 1001.
Definition USDC : address := 1002.
Definition POOL : address := 1003.
Definition ALICE : address := 2001.
Definition BOB : address := 2002.
Definition NO_RECEIVE : address := 3001.
Definition BUNDLER : address := 4001.

Definition leg (out to : address) (amount : N) : ExactInputSingleParams :=
  mkParams WETH out 500 to 1900000000 amount 0 0.

(** Two legs paid out in USDC, and two legs of which the first names the zero
    address as its output token. *)
Definition batch : list ExactInputSingleParams := [leg USDC ALICE 3; leg USDC BOB 4].
Definition mixed : list ExactInputSingleParams := [leg 0 ALICE 3; leg USDC BOB 4].

(** A call from [ALICE] carrying [value] wei. *)
Definition call_env (value : N) : Env := mkEnv ALICE value 1762000000 21000000 BUNDLER.

(** The bundler holds [eth] wei (the value of the call included) and
    [tokens] output tokens. *)
Definition world (eth tokens : N) : World := mkWorld eth tokens 4490 NO_RECEIVE.

(** Providers for the quote path. *)
Definition provider_down : SwapHelpers.Provider :=
  SwapHelpers.mkProvider
    (fun _ _ _ _ _ _ => inr (SwapHelpers.TransportError "connect ECONNREFUSED"))
    (fun _ => inr (SwapHelpers.TransportError "connect ECONNREFUSED"))
    (fun _ => inr (SwapHelpers.TransportError "connect ECONNREFUSED")).

Definition no_float (a b : Z) : SwapHelpers.JsNumber := SwapHelpers.JsNonInteger.

Definition show_units (value decimals : Z) : string := "?"%string.
Definition show_percent (bps : SwapHelpers.JsNumber) : string := "?"%string.

(** A provider whose quoter answers 4490000 and whose pool reads fail. *)
Definition provider_quoter : SwapHelpers.Provider :=
  SwapHelpers.mkProvider
    (fun _ _ _ _ _ _ => inl 4490000%Z)
    (fun _ => inr (SwapHelpers.TransportError "connect ECONNREFUSED"))
    (fun _ => inr (SwapHelpers.TransportError "connect ECONNREFUSED")).

(** Submission: a relay that rejects, a standard endpoint that accepts. *)
Definition connect (url : string) : unit + SwapHelpers.JsError := inl tt.

Definition relay_rejects (p : unit) (key : string) : string + SwapHelpers.JsError :=
  inr (SwapHelpers.TransportError "relay unavailable").

Definition standard_accepts : string + SwapHelpers.JsError := inl "0xabc"%string.

Definition standard_rejects : string + SwapHelpers.JsError :=
  inr (SwapHelpers.CallException "insufficient funds").

(** A provider constructor that takes any text as an endpoint and nothing
    else. *)
Definition provider_on (endpoint : SwapHelpers.JsValue) : string + SwapHelpers.JsError :=
  match endpoint with
  | SwapHelpers.JsString url => inl url
  | _ => inr (SwapHelpers.Error "unsupported endpoint")
  end.

(** A chain on which no external call ever reverts: the router answers
    [4490] output units per unit of value, every transfer goes through. *)
Inductive Generous : Type := generous.

#[export] Instance generous_externals : Externals Generous | 100 := {
  router_exactInputSingleWithETH := fun w _ _ _ value => Some (value * 4490, w);
  erc20_safeTransfer := fun w _ _ _ => Some w;
  erc20_balanceOf := fun _ _ _ => Some 0;
  eth_transfer := fun w _ _ => Some w;
  eth_balance := fun _ _ => 0;
  keccak256_packed := sim_keccak
}.

End Sim.

(* ===================================================================== *)
(** * Properties of the contract                                          *)
(* ===================================================================== *)

Section BundlerFacts.

Import Bundler.

Local Open Scope N_scope.

Context {World : Type} `{Externals World}.

(** ** Running a sequence *)

Lemma bind_Ok {A B} (m : Sol (World:=World) A) (k : A -> Sol B) w t b w' :
  bind m k w = (t, Ok (b, w')) ->
  exists t1 a w1 t2,
    m w = (t1, Ok (a, w1)) /\ k a w1 = (t2, Ok (b, w')) /\ t = t1 ++ t2.
Proof.
  unfold bind. destruct (m w) as [t1 [[a w1]|e]]; [|discriminate].
  destruct (k a w1) as [t2 r] eqn:Hk. intros Heq.
  injection Heq as <- ->. now exists t1, a, w1, t2.
Qed.


Lemma bind_run_Ok {A B} (m : Sol (World:=World) A) (k : A -> Sol B) w t1 a w1 :
  m w = (t1, Ok (a, w1)) ->
  bind m k w = (let (t', r) := k a w1 in (t1 ++ t', r)).
Proof. unfold bind. now intros ->. Qed.

Lemma bind_run_Err {A B} (m : Sol (World:=World) A) (k : A -> Sol B) w t e :
  m w = (t, Err e) -> bind m k w = (t, Err e).
Proof. unfold bind. now intros ->. Qed.

Lemma require_Ok cond reason (w : World) t u w' :
  require cond reason w = (t, Ok (u, w')) -> cond = true /\ t = [] /\ w' = w.
Proof.
  unfold require. destruct cond; cbn; intros Heq; [|discriminate].
  injection Heq as <- _ <-. auto.
Qed.


Lemma checked_sub_Ok a b (w : World) t r w' :
  checked_sub a b w = (t, Ok (r, w')) -> b <= a /\ r = a - b /\ t = [] /\ w' = w.
Proof.
  unfold checked_sub. destruct (b <=? a) eqn:Hle; cbn; intros Heq; [|discriminate].
  injection Heq as <- <- <-. apply N.leb_le in Hle. auto.
Qed.


Lemma call_router_run pool weth s v w :
  call_router pool weth s v w =
  ([RouterCall pool weth s v],
   match router_exactInputSingleWithETH w pool weth s v with
   | Some (amountOut, w') => Ok (amountOut, w')
   | None => Err CalleeReverted
   end).
Proof. reflexivity. Qed.

(** The forwarding step of a leg, as one action list and one outcome. *)
Lemma forward_Ok (s : ExactInputSingleParams) r w t u w' :
  (if negb (tokenOut s =? 0) then safeTransfer (tokenOut s) (recipient s) r else ret tt) w
    = (t, Ok (u, w')) ->
  t = if negb (tokenOut s =? 0) then [TokenTransfer (tokenOut s) (recipient s) r] else [].
Proof.
  destruct (negb (tokenOut s =? 0)); cbn.
  - unfold safeTransfer. intros Heq. now injection Heq as <- _.
  - intros Heq. now injection Heq as <- _.
Qed.


(** ** The summation loop *)

Lemma sumLoop_run swaps : forall acc (w : World),
  acc <= MAX_UINT256 ->
  sumLoop swaps acc w =
  if acc + sum_amountIn swaps <=? MAX_UINT256
  then ([], Ok (acc + sum_amountIn swaps, w))
  else ([], Err (Panic 17)).
Proof.
  induction swaps as [|s rest IH]; intros acc w Hacc; cbn [sumLoop sum_amountIn fold_right].
  - rewrite N.add_0_r. apply N.leb_le in Hacc. now rewrite Hacc.
  - unfold bind, checked_add.
    destruct (acc + amountIn s <=? MAX_UINT256) eqn:Hle; cbn.
    + apply N.leb_le in Hle. rewrite (IH _ w Hle).
      fold (sum_amountIn rest). rewrite N.add_assoc.
      now destruct (acc + amountIn s + sum_amountIn rest <=? MAX_UINT256).
    + apply N.leb_gt in Hle. fold (sum_amountIn rest).
      destruct (acc + (amountIn s + sum_amountIn rest) <=? MAX_UINT256) eqn:Hle2;
        [|reflexivity].
      apply N.leb_le in Hle2. lia.
Qed.

Lemma sumLoop_bind {B} swaps acc (k : N -> Sol (World:=World) B) w :
  acc <= MAX_UINT256 ->
  bind (sumLoop swaps acc) k w =
  if acc + sum_amountIn swaps <=? MAX_UINT256
  then k (acc + sum_amountIn swaps) w
  else ([], Err (Panic 17)).
Proof.
  intros Hacc. unfold bind. rewrite sumLoop_run by assumption.
  destruct (acc + sum_amountIn swaps <=? MAX_UINT256); [|reflexivity].
  now destruct (k (acc + sum_amountIn swaps) w).
Qed.

(** ** The legs loop *)

Lemma legsLoop_Ok pool weth swaps : forall results rem (w : World) t res rem' w',
  legsLoop pool weth swaps results rem w = (t, Ok ((res, rem'), w')) ->
  exists rs,
    res = results ++ rs /\ List.length rs = List.length swaps /\
    t = flat_map (leg_actions pool weth) (combine swaps rs) /\
    sum_amountIn swaps <= rem /\ rem' = rem - sum_amountIn swaps.
Proof.
  induction swaps as [|s rest IH]; intros results rem w t res rem' w' Hrun.
  - cbn in Hrun. injection Hrun as <- <- <- <-. exists [].
    rewrite app_nil_r. cbn. repeat split; lia.
  - cbn [legsLoop] in Hrun.
    apply bind_Ok in Hrun as (t1 & u1 & w1 & t2 & Hreq & Hrun & ->).
    apply require_Ok in Hreq as (_ & -> & ->).
    apply bind_Ok in Hrun as (t1 & r & w2 & t3 & Hcall & Hrun & ->).
    rewrite call_router_run in Hcall. injection Hcall as <- _.
    apply bind_Ok in Hrun as (t4 & u4 & w3 & t5 & Hfwd & Hrun & ->).
    apply forward_Ok in Hfwd as ->.
    apply bind_Ok in Hrun as (t6 & rem1 & w4 & t7 & Hsub & Hrun & ->).
    apply checked_sub_Ok in Hsub as (Hle & -> & -> & ->).
    apply IH in Hrun as (rs & -> & Hlen & -> & Hsum & ->).
    exists (r :: rs). cbn [sum_amountIn fold_right] in *. fold (sum_amountIn rest) in *.
    refine (conj _ (conj _ (conj _ (conj _ _)))).
    + now rewrite <- app_assoc.
    + cbn. now rewrite Hlen.
    + cbn [combine flat_map leg_actions forwarding fst app]. reflexivity.
    + lia.
    + lia.
Qed.


(** ** Traces of legs carry no ETH transfer *)

Lemma eth_sent_to_app who t1 t2 :
  eth_sent_to who (t1 ++ t2) = eth_sent_to who t1 + eth_sent_to who t2.
Proof.
  induction t1 as [|a t1 IH]; [reflexivity|].
  destruct a; cbn; rewrite IH; lia.
Qed.

Lemma legs_trace_facts pool weth who swaps : forall rs,
  List.length rs = List.length swaps ->
  let t := flat_map (leg_actions pool weth) (combine swaps rs) in
  eth_sent_to who t = 0 /\ filter is_eth_transfer t = [] /\
  List.length (filter is_router_call t) = List.length swaps /\
  filter is_token_transfer t = flat_map forwarding (combine swaps rs).
Proof.
  induction swaps as [|s rest IH]; intros [|r rs] Hlen; try discriminate.
  - now cbn.
  - injection Hlen as Hlen. destruct (IH rs Hlen) as (Hs & Hf & Hr & Ht).
    cbv zeta in *. cbn.
    destruct (negb (tokenOut s =? 0)); cbn; rewrite ?Hs, ?Hf, ?Hr, ?Ht;
      refine (conj _ (conj _ (conj _ _))); reflexivity.
Qed.

Lemma refund_actions_facts who amount :
  eth_sent_to who (refund_actions who amount) = amount /\
  filter is_eth_transfer (refund_actions who amount) = refund_actions who amount /\
  filter is_router_call (refund_actions who amount) = [] /\
  filter is_token_transfer (refund_actions who amount) = [].
Proof.
  unfold refund_actions. destruct (0 <? amount) eqn:Hpos; cbn.
  - rewrite N.eqb_refl. refine (conj _ (conj _ (conj _ _))); try reflexivity. lia.
  - apply N.ltb_ge in Hpos. refine (conj _ (conj _ (conj _ _))); try reflexivity. lia.
Qed.

(** ** The batch as a whole *)

Lemma bundleSwaps_early env pool weth swaps (w : World) :
  msg_value env < sum_amountIn swaps ->
  bundleSwaps env pool weth swaps w =
  ([], Err (if sum_amountIn swaps <=? MAX_UINT256
            then Revert "Insufficient ETH" else Panic 17)).
Proof.
  intros Hlt. unfold bundleSwaps.
  destruct swaps as [|s rest]; [cbn in Hlt; lia|].
  assert (Hne : (0 <? N.of_nat (List.length (s :: rest))) = true)
    by (apply N.ltb_lt; cbn [List.length]; lia).
  rewrite Hne. cbn [require].
  rewrite (bind_run_Ok _ _ w [] tt w eq_refl).
  rewrite sumLoop_bind by (unfold MAX_UINT256; lia). rewrite N.add_0_l.
  destruct (sum_amountIn (s :: rest) <=? MAX_UINT256); [|reflexivity].
  assert (Hins : (sum_amountIn (s :: rest) <=? msg_value env) = false)
    by (apply N.leb_gt; lia).
  rewrite Hins. reflexivity.
Qed.

Lemma bundleSwaps_Ok env pool weth swaps (w : World) t results w' :
  bundleSwaps env pool weth swaps w = (t, Ok (results, w')) ->
  swaps <> [] /\ sum_amountIn swaps <= msg_value env /\
  List.length results = List.length swaps /\
  t = flat_map (leg_actions pool weth) (combine swaps results) ++
      refund_actions (msg_sender env) (msg_value env - sum_amountIn swaps).
Proof.
  unfold bundleSwaps. intros Hrun.
  apply bind_Ok in Hrun as (t1 & u1 & w1 & t2 & Hreq & Hrun & ->).
  apply require_Ok in Hreq as (Hne & -> & ->).
  apply bind_Ok in Hrun as (t1 & total & w1 & t3 & Htotal & Hrun & ->).
  rewrite sumLoop_run in Htotal by (unfold MAX_UINT256; lia).
  destruct (0 + sum_amountIn swaps <=? MAX_UINT256); [|discriminate].
  injection Htotal as <- _ _.
  apply bind_Ok in Hrun as (t4 & u4 & w2 & t5 & Hins & Hrun & ->).
  apply require_Ok in Hins as (_ & -> & _).
  apply bind_Ok in Hrun as (t6 & [res rem'] & w3 & t7 & Hlegs & Hrun & ->).
  apply legsLoop_Ok in Hlegs as (rs & Hres & Hlen & -> & Hsum & ->).
  cbn [app] in Hres. subst res.
  apply bind_Ok in Hrun as (t8 & u8 & w4 & t9 & Hrefund & Hrun & ->).
  cbn [fst snd] in *. injection Hrun as <- <- <-.
  assert (Ht8 : t8 = refund_actions (msg_sender env) (msg_value env - sum_amountIn swaps)).
  { unfold refund_actions.
    destruct (0 <? msg_value env - sum_amountIn swaps).
    - unfold transfer in Hrefund. now injection Hrefund as <- _.
    - now injection Hrefund as <- _. }
  subst t8. rewrite !app_nil_r. cbn [app].
  refine (conj _ (conj Hsum (conj Hlen eq_refl))).
  intros ->. discriminate.
Qed.


(** ** The single swap *)

Lemma bundleSwap_trace env pool weth params (w : World) :
  filter is_token_transfer (fst (bundleSwap env pool weth params w)) = [].
Proof.
  unfold bundleSwap, bind, require.
  destruct (0 <? msg_value env); cbn; [|reflexivity].
  destruct (tokenIn params =? weth); cbn; [|reflexivity].
  now destruct (router_exactInputSingleWithETH w pool weth params (msg_value env))
    as [[amountOut w']|].
Qed.

(** ** The padding loop *)

Lemma dummyLoop_cap fuel env dummyOps : forall i,
  dummyLoop (World:=World) fuel env dummyOps i =
  dummyLoop fuel env (N.min dummyOps 10) i.
Proof.
  induction fuel as [|fuel IH]; intros i; [reflexivity|].
  cbn [dummyLoop]. rewrite (IH (i + 1)).
  assert (Hcond : (i <? dummyOps) && (i <? 10) = (i <? N.min dummyOps 10) && (i <? 10)).
  { destruct (i <? 10) eqn:H10; [|now rewrite !andb_false_r].
    rewrite !andb_true_r. apply N.ltb_lt in H10.
    destruct (i <? dummyOps) eqn:Hd; symmetry.
    - apply N.ltb_lt in Hd. apply N.ltb_lt. lia.
    - apply N.ltb_ge in Hd. apply N.ltb_ge. lia. }
  now rewrite Hcond.
Qed.

(** Ten units of fuel are all the loop can use: more fuel changes nothing. *)
Lemma dummyLoop_fuel_enough env dummyOps extra : forall fuel i,
  10 <= i + N.of_nat fuel ->
  dummyLoop (World:=World) (fuel + extra) env dummyOps i =
  dummyLoop fuel env dummyOps i.
Proof.
  induction fuel as [|fuel IH]; intros i Hfuel.
  - destruct extra as [|extra]; [reflexivity|]. cbn [Nat.add dummyLoop].
    assert (H10 : (i <? 10) = false) by (apply N.ltb_ge; lia).
    now rewrite H10, andb_false_r.
  - cbn [Nat.add dummyLoop]. rewrite (IH (i + 1)) by lia. reflexivity.
Qed.

Lemma bundleSwapWithObfuscation_cap env pool weth params dummyOps :
  bundleSwapWithObfuscation (World:=World) env pool weth params dummyOps =
  bundleSwapWithObfuscation env pool weth params (N.min dummyOps 10).
Proof. unfold bundleSwapWithObfuscation. now rewrite dummyLoop_cap. Qed.

(** With a block timestamp that leaves room for the padding arithmetic, the
    padding does nothing at all. *)
Lemma dummyLoop_no_effect env dummyOps (w : World) : forall fuel i,
  (block_timestamp env + 10) * 2 <= MAX_UINT256 ->
  dummyLoop fuel env dummyOps i w = ([], Ok (tt, w)).
Proof.
  induction fuel as [|fuel IH]; intros i Hts; [reflexivity|].
  cbn [dummyLoop].
  destruct ((i <? dummyOps) && (i <? 10)) eqn:Hcond; [|reflexivity].
  apply andb_true_iff in Hcond as [_ H10]. apply N.ltb_lt in H10.
  unfold bind, checked_add, checked_mul.
  assert (Ha : (block_timestamp env + i <=? MAX_UINT256) = true)
    by (apply N.leb_le; lia).
  assert (Hm : ((block_timestamp env + i) * 2 <=? MAX_UINT256) = true)
    by (apply N.leb_le; lia).
  rewrite Ha. cbn. rewrite Hm. cbn. now rewrite IH.
Qed.

(** ** Progress: with external calls that go through, the legs run *)



(** Apart from the forwarding step the two single-leg paths are the same
    code: they agree on every call whose output token is the zero address,
    whatever the padding count. *)
Lemma obfuscation_agrees_without_forwarding env pool weth params dummyOps (w : World) :
  (block_timestamp env + 10) * 2 <= MAX_UINT256 ->
  tokenOut params = 0 ->
  bundleSwapWithObfuscation env pool weth params dummyOps w =
  bundleSwap env pool weth params w.
Proof.
  intros Hts Hout. unfold bundleSwapWithObfuscation, bundleSwap.
  rewrite (bind_run_Ok _ _ w [] tt w (dummyLoop_no_effect env dummyOps w 10 0 Hts)).
  rewrite Hout. unfold bind, require, call_router, emit, ret. cbn.
  destruct (0 <? msg_value env); [|reflexivity].
  destruct (tokenIn params =? weth); [|reflexivity].
  now destruct (router_exactInputSingleWithETH w pool weth params (msg_value env))
    as [[amountOut w']|].
Qed.

End BundlerFacts.

(* ===================================================================== *)
(** * What the contract guarantees                                        *)
(* ===================================================================== *)

Section BundlerClaims.

Import Bundler.

Local Open Scope N_scope.

Context {World : Type} `{Externals World}.


(** C8, as the code has it.  The single-swap path never attempts a token
    transfer, whatever its outcome.  A batch that completes has, for each
    leg in order, called the router and then forwarded that leg's output to
    that leg's recipient by one token transfer when the leg's output token is
    not the zero address, and by none when it is. *)
Theorem output_forwarding_by_path env pool weth :
  (forall params (w : World),
     filter is_token_transfer (fst (bundleSwap env pool weth params w)) = []) /\
  (forall swaps (w : World) t results w',
     bundleSwaps env pool weth swaps w = (t, Ok (results, w')) ->
     List.length results = List.length swaps /\
     t = flat_map (leg_actions pool weth) (combine swaps results) ++
         refund_actions (msg_sender env) (msg_value env - sum_amountIn swaps) /\
     filter is_token_transfer t = flat_map forwarding (combine swaps results)).
Proof.
  split.
  - intros params w. apply bundleSwap_trace.
  - intros swaps w t results w' Hrun.
    apply bundleSwaps_Ok in Hrun as (_ & _ & Hlen & ->).
    refine (conj Hlen (conj eq_refl _)).
    destruct (legs_trace_facts pool weth (msg_sender env) swaps results Hlen)
      as (_ & _ & _ & Ht).
    destruct (refund_actions_facts (msg_sender env)
                (msg_value env - sum_amountIn swaps)) as (_ & _ & _ & Ht').
    now rewrite filter_app, Ht, Ht', app_nil_r.
Qed.

(** C10, as the code has it.  [withdraw] does not look at the caller.  A
    call that carries value is reverted before the body, the function not
    being payable.  A call that carries none reverts before any external call
    when [to] is the zero address.  Otherwise, for the zero token it attempts
    one transfer of the contract's whole ETH balance to [to]; for another
    token it reads its own balance and, when that is positive, attempts one
    transfer of the whole balance to [to].  It completes exactly when those
    external calls do. *)
Theorem withdraw_behaviour env token to (w : World) :
  (forall env', this_address env' = this_address env ->
     msg_value env' = msg_value env ->
     withdraw env' token to w = withdraw env token to w) /\
  (0 < msg_value env -> withdraw env token to w = ([], Err RevertNoData)) /\
  (msg_value env = 0 -> to = 0 ->
     withdraw env token to w = ([], Err (Revert "Invalid recipient"))) /\
  (msg_value env = 0 -> to <> 0 -> token = 0 ->
     withdraw env token to w =
     ([EthTransfer to (eth_balance w (this_address env))],
      match eth_transfer w to (eth_balance w (this_address env)) with
      | Some w' => Ok (tt, w')
      | None => Err CalleeReverted
      end)) /\
  (msg_value env = 0 -> to <> 0 -> token <> 0 ->
     withdraw env token to w =
     match erc20_balanceOf w token (this_address env) with
     | None => ([TokenBalanceOf token (this_address env)], Err CalleeReverted)
     | Some balance =>
         if 0 <? balance then
           ([TokenBalanceOf token (this_address env); TokenTransfer token to balance],
            match erc20_safeTransfer w token to balance with
            | Some w' => Ok (tt, w')
            | None => Err CalleeReverted
            end)
         else ([TokenBalanceOf token (this_address env)], Ok (tt, w))
     end).
Proof.
  refine (conj _ (conj _ (conj _ (conj _ _)))).
  - intros env' Hthis Hvalue. unfold withdraw, self_balance. now rewrite Hthis, Hvalue.
  - intros Hvalue. apply N.ltb_lt in Hvalue. unfold withdraw, bind.
    now rewrite Hvalue.
  - intros Hvalue ->. unfold withdraw. rewrite Hvalue. reflexivity.
  - intros Hvalue Hto ->. apply N.eqb_neq in Hto.
    unfold withdraw, bind, require, self_balance, transfer.
    rewrite Hvalue, Hto. reflexivity.
  - intros Hvalue Hto Htoken. apply N.eqb_neq in Hto. apply N.eqb_neq in Htoken.
    unfold withdraw, bind, require, balanceOf, safeTransfer.
    rewrite Hvalue, Hto, Htoken. cbn.
    destruct (erc20_balanceOf w token (this_address env)) as [balance|]; [|reflexivity].
    destruct (0 <? balance); reflexivity.
Qed.

End BundlerClaims.

Section BundlerRuns.

Import Bundler Sim.

Local Open Scope N_scope.


(** A batch leg whose output token is the zero address gets its router call
    and no forwarding, in a batch that completes. *)
Lemma batch_leg_without_forwarding :
  exists t w',
    bundleSwaps (call_env 3) POOL WETH [leg 0 ALICE 3] (world 3 0)
      = (t, Ok ([13470], w')) /\
    List.length (filter is_router_call t) = 1%nat /\
    filter is_token_transfer t = [].
Proof. do 2 eexists. split; [vm_compute; reflexivity|]. split; reflexivity. Qed.

Lemma output_forwarding_by_path_witness :
  filter is_token_transfer
    (fst (bundleSwaps (call_env 10) POOL WETH mixed (world 10 100000)))
  = [TokenTransfer USDC BOB 17960].
Proof.
  destruct (output_forwarding_by_path (call_env 10) POOL WETH) as [_ Hbatch].
  edestruct (Hbatch mixed (world 10 100000)) as (_ & _ & Hfwd);
    [vm_compute; reflexivity|].
  exact Hfwd.
Defined.

(** C7.  The obfuscation path is not the single-swap path behind padding: on
    the same call, with no padding at all, [bundleSwap] calls the router,
    emits the event and completes, while [bundleSwapWithObfuscation] follows
    the router call by a token transfer of the output to the recipient, which
    reverts the call when the bundler holds no such tokens. *)
Theorem obfuscation_forwards_output_again :
  bundleSwap (call_env 7) POOL WETH (leg USDC ALICE 7) (world 7 0)
    = ([RouterCall POOL WETH (leg USDC ALICE 7) 7;
        EmitSwapBundled ALICE WETH USDC 7 31430
          (sim_keccak 1762000000 21000000 ALICE 7)],
       Ok (31430, world 0 0)) /\
  bundleSwapWithObfuscation (call_env 7) POOL WETH (leg USDC ALICE 7) 0 (world 7 0)
    = ([RouterCall POOL WETH (leg USDC ALICE 7) 7;
        TokenTransfer USDC ALICE 31430],
       Err CalleeReverted).
Proof. split; vm_compute; reflexivity. Qed.

(** A recipient that refuses ETH makes [withdraw] revert although [to] is
    not the zero address. *)
Lemma withdraw_reverts_for_nonzero_recipient :
  NO_RECEIVE <> 0 /\
  withdraw (call_env 0) 0 NO_RECEIVE (world 7 0)
    = ([EthTransfer NO_RECEIVE 7], Err CalleeReverted).
Proof. split; [discriminate|vm_compute; reflexivity]. Qed.

Lemma withdraw_behaviour_witness :
  withdraw (call_env 0) 0 BOB (world 7 0) = ([EthTransfer BOB 7], Ok (tt, world 0 0)) /\
  withdraw (call_env 0) USDC 0 (world 7 5) = ([], Err (Revert "Invalid recipient")) /\
  withdraw (call_env 1) 0 BOB (world 8 0) = ([], Err RevertNoData).
Proof.
  refine (conj _ (conj _ _)).
  - destruct (withdraw_behaviour (call_env 0) 0 BOB (world 7 0))
      as (_ & _ & _ & Heth & _).
    rewrite Heth; [reflexivity|reflexivity|discriminate|reflexivity].
  - destruct (withdraw_behaviour (call_env 0) USDC 0 (world 7 5)) as (_ & _ & Hzero & _).
    now apply Hzero.
  - destruct (withdraw_behaviour (call_env 1) 0 BOB (world 8 0)) as (_ & Hvalue & _).
    now apply Hvalue.
Defined.

End BundlerRuns.

(* ===================================================================== *)
(** * Properties of the helpers and of the script stages                  *)
(* ===================================================================== *)

Section HelperFacts.

Import SwapHelpers Orchestrator.

Local Open Scope string_scope.
Local Open Scope Z_scope.
Local Open Scope list_scope.

Variable floor_times_price : Z -> Z -> JsNumber.
Variable floor_over_price : Z -> Z -> JsNumber.

Lemma calculateMinOutput_run q t :
  q <> 0 ->
  calculateMinOutput (Some q) (JsInt t) = ([], Return (Z.quot (q * (10000 - t)) 10000)).
Proof.
  intros Hq. unfold calculateMinOutput.
  apply Z.eqb_neq in Hq. rewrite Hq. reflexivity.
Qed.

(** No network named [sepolia] has a private endpoint in the table. *)
Lemma getPrivateRPCUrl_sepolia network :
  toLowerCase network = "sepolia" -> truthy (getPrivateRPCUrl network) = false.
Proof. intros Hname. unfold getPrivateRPCUrl. rewrite Hname. reflexivity. Qed.

Lemma getQuoteFromPool_total poolAddress tokenIn tokenOut amountIn provider :
  exists q,
    getQuoteFromPool floor_times_price floor_over_price
      poolAddress tokenIn tokenOut amountIn provider = ([], Return q).
Proof.
  unfold getQuoteFromPool, try_catch, bind, await, BigInt, ret, throw.
  destruct (slot0_sqrtPriceX96 provider poolAddress) as [sqrtPriceX96|e]; cbn; eauto.
  destruct (token0 provider poolAddress) as [token0'|e]; cbn; eauto.
  destruct (toLowerCase token0' =? toLowerCase tokenIn)%string.
  - destruct (floor_times_price amountIn sqrtPriceX96); cbn; eauto.
  - destruct (floor_over_price amountIn sqrtPriceX96); cbn; eauto.
Qed.

Lemma getQuoteFromPool_read_fails poolAddress tokenIn tokenOut amountIn provider :
  (exists e, slot0_sqrtPriceX96 provider poolAddress = inr e) \/
  (exists e, token0 provider poolAddress = inr e) ->
  getQuoteFromPool floor_times_price floor_over_price
    poolAddress tokenIn tokenOut amountIn provider = ([], Return None).
Proof.
  unfold getQuoteFromPool, try_catch, bind, await, ret, throw.
  intros [[e He] | [e He]].
  - now rewrite He.
  - rewrite He. now destruct (slot0_sqrtPriceX96 provider poolAddress).
Qed.

Lemma getSwapQuote_total QUOTER_V2 pool tokenIn tokenOut amountIn fee provider :
  exists q,
    getSwapQuote floor_times_price floor_over_price QUOTER_V2
      pool tokenIn tokenOut amountIn fee provider = ([], Return q).
Proof.
  destruct (getQuoteFromPool_total pool tokenIn tokenOut amountIn provider) as [q Hq].
  unfold getSwapQuote.
  rewrite Hq.
  destruct QUOTER_V2 as [quoter|]; [destruct (negb (quoter =? "")%string)|];
    [|cbn; eauto..].
  unfold bind, await.
  destruct (quoteExactInputSingle provider quoter tokenIn tokenOut fee amountIn 0)
    as [amountOut|e]; cbn; eauto.
Qed.

End HelperFacts.

(* ===================================================================== *)
(** * What the helpers and the script guarantee                           *)
(* ===================================================================== *)

Section HelperClaims.

Import SwapHelpers Orchestrator.

Local Open Scope string_scope.
Local Open Scope Z_scope.
Local Open Scope list_scope.

(** C2.  For a quote [q > 0] and a tolerance of [t] basis points with
    [0 <= t <= 10000], [calculateMinOutput] returns
    [floor (q * (10000 - t) / 10000)], without throwing and without writing
    to the console. *)
Theorem calculateMinOutput_floor q t :
  0 < q ->
  0 <= t <= 10000 ->
  calculateMinOutput (Some q) (JsInt t) = ([], Return (q * (10000 - t) / 10000)).
Proof.
  intros Hq Ht. rewrite calculateMinOutput_run by lia.
  rewrite Z.quot_div_nonneg by nia. reflexivity.
Qed.

Lemma calculateMinOutput_floor_witness :
  calculateMinOutput (Some 4490000) (JsInt 200) = ([], Return 4400200).
Proof. apply (calculateMinOutput_floor 4490000 200); lia. Defined.

(** C9, as the code has it.  [calculateMinOutput] does not check the range of
    the tolerance: for a quote other than zero and an integer tolerance [t]
    below 0 or above 10000 it returns the truncated quotient of
    [q * (10000 - t)] by 10000 like for any other [t]; for [q > 0] that value
    is at most 0 when [t > 10000] and at least [q] when [t < 0]. *)
Theorem calculateMinOutput_unchecked_tolerance q t :
  q <> 0 ->
  t < 0 \/ 10000 < t ->
  calculateMinOutput (Some q) (JsInt t) = ([], Return (Z.quot (q * (10000 - t)) 10000)) /\
  (0 < q -> 10000 < t -> Z.quot (q * (10000 - t)) 10000 <= 0) /\
  (0 < q -> t < 0 -> q <= Z.quot (q * (10000 - t)) 10000).
Proof.
  intros Hq _. refine (conj (calculateMinOutput_run q t Hq) (conj _ _)).
  - intros Hpos Ht.
    replace (q * (10000 - t)) with (- (q * (t - 10000))) by ring.
    rewrite Z.quot_opp_l by lia.
    assert (0 <= Z.quot (q * (t - 10000)) 10000) by (apply Z.quot_pos; nia).
    lia.
  - intros Hpos Ht. rewrite Z.quot_div_nonneg by nia.
    apply Z.div_le_lower_bound; nia.
Qed.

(** A tolerance of 20000 basis points is accepted and turns a quote of 1000
    into a minimum output of -1000. *)
Lemma calculateMinOutput_accepts_out_of_range :
  calculateMinOutput (Some 1000) (JsInt 20000) = ([], Return (-1000)).
Proof. reflexivity. Qed.

Lemma calculateMinOutput_unchecked_tolerance_witness :
  calculateMinOutput (Some 1000) (JsInt (-500)) = ([], Return 1050) /\
  1000 <= Z.quot (1000 * (10000 - (-500))) 10000.
Proof.
  destruct (calculateMinOutput_unchecked_tolerance 1000 (-500)) as (Hrun & _ & Hlow);
    [lia | lia |].
  split; [exact Hrun | apply Hlow; lia].
Defined.

(** C3.  On a production chain, with an endpoint that is not recognised as
    private and a private endpoint listed for the network, [enforcePrivateRPC]
    throws [Error("Private RPC required for production network")]; the script
    prints the message and exits with code 1, so nothing that follows the
    route stage, the submission included, is run. *)
Theorem production_requires_private_endpoint chainId network rpcUrl :
  isProductionNetwork chainId = true ->
  isPrivateRPC rpcUrl = false ->
  truthy (getPrivateRPCUrl network) = true ->
  exists out,
    enforcePrivateRPC (inl chainId) network rpcUrl
      = (out, Throw (Error "Private RPC required for production network")) /\
    forall (A : Type) (rest : bool -> Js A),
      bind (routeStage (inl chainId) network rpcUrl) rest
        = (out ++ [ConsoleError "Private RPC required for production network"], Exit 1).
Proof.
  intros Hprod Hpub Halt.
  assert (Hname : (toLowerCase network =? "sepolia")%string = false).
  { destruct (toLowerCase network =? "sepolia")%string eqn:Heq; [|reflexivity].
    apply String.eqb_eq, getPrivateRPCUrl_sepolia in Heq. congruence. }
  unfold routeStage, enforcePrivateRPC.
  cbn [await bind ret]. rewrite Hprod, Hpub, Hname, Halt. cbn.
  eexists. split; reflexivity.
Qed.

Lemma production_requires_private_endpoint_witness :
  exists out,
    enforcePrivateRPC (inl 1) "mainnet" "https://eth.llamarpc.com"
      = (out, Throw (Error "Private RPC required for production network")).
Proof.
  destruct (production_requires_private_endpoint 1 "mainnet" "https://eth.llamarpc.com")
    as (out & Hthrow & _); [reflexivity..|].
  exists out. exact Hthrow.
Defined.

(** C4, as the code has it.  On a production chain, with an endpoint that is
    not recognised as private and no private endpoint listed for the network,
    [enforcePrivateRPC] does not refuse: it writes its notice (four warning
    lines, or the two Sepolia lines when the network is named sepolia) and
    returns [false], and the script goes on with the stages after the route
    stage. *)
Theorem production_without_alternative_proceeds chainId network rpcUrl :
  isProductionNetwork chainId = true ->
  isPrivateRPC rpcUrl = false ->
  truthy (getPrivateRPCUrl network) = false ->
  let out :=
    if (toLowerCase network =? "sepolia")%string then
      [ConsoleLog "  Sepolia: Using bundler + slippage protection for MEV mitigation";
       ConsoleLog "     (Private RPC not available for Sepolia, but bundler provides protection)"]
    else
      [ConsoleWarn "PRODUCTION NETWORK DETECTED!";
       ConsoleWarn "   Private RPC is recommended but not configured.";
       ConsoleWarn "   Your transactions will be visible in public mempool.";
       ConsoleWarn "   Consider using FlashTrades, Flashbots Protect, or Eden Network."] in
  enforcePrivateRPC (inl chainId) network rpcUrl = (out, Return false) /\
  forall (A : Type) (rest : bool -> Js A),
    bind (routeStage (inl chainId) network rpcUrl) rest
      = (let (out', c) := rest false in (out ++ out', c)).
Proof.
  intros Hprod Hpub Halt. unfold routeStage, enforcePrivateRPC.
  cbn [await bind ret]. rewrite Hprod, Hpub, Halt.
  destruct (toLowerCase network =? "sepolia")%string; cbn; split; reflexivity.
Qed.

(** A production chain reached under a network name with no listed private
    endpoint, through a public endpoint: the selector returns and the run goes
    on. *)
Lemma production_without_alternative_not_refused :
  isProductionNetwork 1 = true /\
  isPrivateRPC "https://eth.llamarpc.com" = false /\
  getPrivateRPCUrl "homestead" = JsNull /\
  exists out,
    enforcePrivateRPC (inl 1) "homestead" "https://eth.llamarpc.com" = (out, Return false).
Proof. repeat split. eexists. reflexivity. Qed.

Lemma production_without_alternative_proceeds_witness :
  exists out,
    enforcePrivateRPC (inl 1) "homestead" "https://eth.llamarpc.com" = (out, Return false).
Proof.
  destruct (production_without_alternative_proceeds 1 "homestead" "https://eth.llamarpc.com")
    as (Hrun & _); [reflexivity..|].
  eexists. exact Hrun.
Defined.

(** C5.  With no quote, [calculateMinOutput] returns 0 for every tolerance,
    without throwing; and the quote stage of the script, whenever
    [getSwapQuote] comes back with no quote, writes the line saying that no
    slippage protection is in place and goes on with a minimum output of 0. *)
Theorem absent_quote_zero_minimum_with_warning
  floor_times_price floor_over_price formatUnits percent
  QUOTER_V2 POOL_ADDRESS WETH_ADDRESS USDC_ADDRESS amountIn POOL_FEE
  SLIPPAGE_BPS usdcDecimals usdcSymbol provider out :
  getSwapQuote floor_times_price floor_over_price QUOTER_V2
    POOL_ADDRESS WETH_ADDRESS USDC_ADDRESS amountIn POOL_FEE provider
    = (out, Return None) ->
  (forall t, calculateMinOutput None t = ([], Return 0)) /\
  quoteStage floor_times_price floor_over_price formatUnits percent QUOTER_V2
    POOL_ADDRESS WETH_ADDRESS USDC_ADDRESS amountIn POOL_FEE
    SLIPPAGE_BPS usdcDecimals usdcSymbol provider
  = (ConsoleLog "Getting swap quote..." :: out ++
     [ConsoleLog "  Could not get quote, using 0 as minimum (no slippage protection)";
      ConsoleLog ""],
     Return 0).
Proof.
  intros Hquote. split; [reflexivity|].
  unfold quoteStage. rewrite Hquote. cbn. reflexivity.
Qed.

Lemma absent_quote_zero_minimum_with_warning_witness :
  quoteStage Sim.no_float Sim.no_float Sim.show_units Sim.show_percent
    None "0xPool" "0xWeth" "0xUsdc" 2000000000000000 500 (JsInt 200) 6 "USDC"
    Sim.provider_down
  = ([ConsoleLog "Getting swap quote...";
      ConsoleLog "  Could not get quote, using 0 as minimum (no slippage protection)";
      ConsoleLog ""],
     Return 0).
Proof.
  apply (absent_quote_zero_minimum_with_warning
           Sim.no_float Sim.no_float Sim.show_units Sim.show_percent
           None "0xPool" "0xWeth" "0xUsdc" 2000000000000000 500 (JsInt 200) 6 "USDC"
           Sim.provider_down []).
  reflexivity.
Defined.

(** C6, as the code has it.  [getSwapQuote] never throws, never exits and
    writes nothing: every call returns a quote or no quote.  When no quoter
    is set, or the quoter call is rejected, and a pool read is rejected, for
    whatever reason, a transport failure included, the result is no quote. *)
Theorem getSwapQuote_absorbs_every_failure
  floor_times_price floor_over_price
  QUOTER_V2 pool tokenIn tokenOut amountIn fee provider :
  (exists q,
     getSwapQuote floor_times_price floor_over_price QUOTER_V2
       pool tokenIn tokenOut amountIn fee provider = ([], Return q)) /\
  ((forall quoter, QUOTER_V2 = Some quoter -> quoter <> ""%string ->
      exists e, quoteExactInputSingle provider quoter tokenIn tokenOut fee amountIn 0
                = inr e) ->
   (exists e, slot0_sqrtPriceX96 provider pool = inr e) \/
   (exists e, token0 provider pool = inr e) ->
   getSwapQuote floor_times_price floor_over_price QUOTER_V2
     pool tokenIn tokenOut amountIn fee provider = ([], Return None)).
Proof.
  split; [apply getSwapQuote_total|].
  intros Hquoter Hpool.
  pose proof (getQuoteFromPool_read_fails floor_times_price floor_over_price
                pool tokenIn tokenOut amountIn provider Hpool) as Hnone.
  unfold getSwapQuote. rewrite Hnone.
  destruct QUOTER_V2 as [quoter|]; [|reflexivity].
  destruct (quoter =? "")%string eqn:Hset; [reflexivity|].
  apply String.eqb_neq in Hset.
  destruct (Hquoter quoter eq_refl Hset) as [e He].
  cbn [negb]. unfold bind, await. rewrite He. reflexivity.
Qed.

(** With every chain read failing on the transport, the quoter call included,
    [getSwapQuote] returns no quote instead of passing the failure on. *)
Lemma getSwapQuote_swallows_transport_failure :
  slot0_sqrtPriceX96 Sim.provider_down "0xPool"
    = inr (TransportError "connect ECONNREFUSED") /\
  quoteExactInputSingle Sim.provider_down "0xQuoter" "0xWeth" "0xUsdc" 500 1000 0
    = inr (TransportError "connect ECONNREFUSED") /\
  getSwapQuote Sim.no_float Sim.no_float (Some "0xQuoter")
    "0xPool" "0xWeth" "0xUsdc" 1000 500 Sim.provider_down = ([], Return None).
Proof. repeat split. Qed.

Lemma getSwapQuote_absorbs_every_failure_witness :
  getSwapQuote Sim.no_float Sim.no_float (Some "0xQuoter")
    "0xPool" "0xWeth" "0xUsdc" 1000 500 Sim.provider_down = ([], Return None).
Proof.
  destruct (getSwapQuote_absorbs_every_failure Sim.no_float Sim.no_float
              (Some "0xQuoter") "0xPool" "0xWeth" "0xUsdc" 1000 500 Sim.provider_down)
    as [_ Hnone].
  apply Hnone.
  - intros quoter _ _. eexists. reflexivity.
  - left. eexists. reflexivity.
Defined.

End HelperClaims.

(* ===================================================================== *)
(** * Further properties of the contract                                  *)
(* ===================================================================== *)

Section BundlerMoreFacts.

Import Bundler.

Local Open Scope N_scope.

Context {World : Type} `{Externals World}.

(** ** Every action of a run satisfies a predicate *)

Lemma bind_trace_Forall {A B} (P : Action -> Prop)
  (m : Sol (World:=World) A) (k : A -> Sol B) w :
  Forall P (fst (m w)) ->
  (forall a w1, Forall P (fst (k a w1))) ->
  Forall P (fst (bind m k w)).
Proof.
  intros Hm Hk. unfold bind.
  destruct (m w) as [t1 [[a w1]|e]]; cbn [fst] in *; [|assumption].
  specialize (Hk a w1). destruct (k a w1) as [t2 r]. cbn [fst] in *.
  apply Forall_app. now split.
Qed.

Lemma require_trace cond reason (w : World) : fst (require cond reason w) = [].
Proof. now destruct cond. Qed.

Lemma checked_sub_trace a b (w : World) : fst (checked_sub a b w) = [].
Proof. unfold checked_sub. now destruct (b <=? a). Qed.

Lemma sumLoop_trace swaps : forall acc (w : World), fst (sumLoop swaps acc w) = [].
Proof.
  induction swaps as [|s rest IH]; intros acc w; [reflexivity|].
  cbn [sumLoop]. unfold bind, checked_add.
  destruct (acc + amountIn s <=? MAX_UINT256); [|reflexivity].
  cbn. specialize (IH (acc + amountIn s) w).
  destruct (sumLoop rest (acc + amountIn s) w) as [t r]. cbn [fst] in IH.
  now subst t.
Qed.

Lemma legsLoop_trace pool weth swaps : forall results rem (w : World),
  Forall leg_action (fst (legsLoop pool weth swaps results rem w)).
Proof.
  induction swaps as [|s rest IH]; intros results rem w; [constructor|].
  cbn [legsLoop].
  apply bind_trace_Forall; [rewrite require_trace; constructor|]. intros _ w1.
  apply bind_trace_Forall.
  { rewrite call_router_run. cbn [fst]. constructor; [now left|constructor]. }
  intros r w2. apply bind_trace_Forall.
  { destruct (negb (tokenOut s =? 0)); cbn; [|constructor].
    constructor; [now right|constructor]. }
  intros _ w3. apply bind_trace_Forall; [rewrite checked_sub_trace; constructor|].
  intros rem' w4. apply IH.
Qed.

Lemma legsLoop_weth pool weth swaps : forall results rem (w : World) t res w',
  legsLoop pool weth swaps results rem w = (t, Ok (res, w')) ->
  Forall (fun s => tokenIn s = weth) swaps.
Proof.
  induction swaps as [|s rest IH]; intros results rem w t res w' Hrun; [constructor|].
  cbn [legsLoop] in Hrun.
  apply bind_Ok in Hrun as (t1 & u1 & w1 & t2 & Hreq & Hrun & _).
  apply require_Ok in Hreq as (Hweth & _ & _). apply N.eqb_eq in Hweth.
  apply bind_Ok in Hrun as (t3 & r & w2 & t4 & _ & Hrun & _).
  apply bind_Ok in Hrun as (t5 & u5 & w3 & t6 & _ & Hrun & _).
  apply bind_Ok in Hrun as (t7 & rem1 & w4 & t8 & _ & Hrun & _).
  constructor; [assumption|]. now apply IH in Hrun.
Qed.

Lemma eth_sent_to_router_app t1 t2 :
  eth_sent_to_router (t1 ++ t2) = eth_sent_to_router t1 + eth_sent_to_router t2.
Proof.
  induction t1 as [|a t1 IH]; [reflexivity|].
  destruct a; cbn; rewrite IH; lia.
Qed.

Lemma legs_router_value pool weth swaps : forall rs,
  List.length rs = List.length swaps ->
  eth_sent_to_router (flat_map (leg_actions pool weth) (combine swaps rs))
  = sum_amountIn swaps.
Proof.
  induction swaps as [|s rest IH]; intros [|r rs] Hlen; try discriminate.
  - reflexivity.
  - injection Hlen as Hlen. cbn [combine flat_map].
    rewrite eth_sent_to_router_app, (IH rs Hlen).
    cbn [sum_amountIn fold_right]. fold (sum_amountIn rest).
    unfold leg_actions, forwarding. cbn [fst].
    destruct (negb (tokenOut s =? 0)); cbn; lia.
Qed.

(** ** The padding loop, whatever the timestamp *)

Lemma dummyLoop_outcome env dummyOps (w : World) : forall fuel i,
  dummyLoop fuel env dummyOps i w = ([], Ok (tt, w)) \/
  dummyLoop fuel env dummyOps i w = ([], Err (Panic 17)).
Proof.
  induction fuel as [|fuel IH]; intros i; [now left|].
  cbn [dummyLoop].
  destruct ((i <? dummyOps) && (i <? 10)); [|now left].
  unfold bind at 1. unfold checked_add.
  destruct (block_timestamp env + i <=? MAX_UINT256); [|now right].
  cbn. unfold bind at 1. unfold checked_mul.
  destruct ((block_timestamp env + i) * 2 <=? MAX_UINT256); [|now right].
  cbn. destruct (IH (i + 1)) as [-> | ->]; [now left|now right].
Qed.

End BundlerMoreFacts.

Section BundlerMoreClaims.

Import Bundler.

Local Open Scope N_scope.

Context {World : Type} `{Externals World}.

(** X1.  [bundleSwap] checks the value first and the input token second, and
    fails on either check before any external call; past both checks its
    first action is the router call, carrying the whole [msg.value]. *)
Theorem bundleSwap_guards env pool weth params (w : World) :
  (msg_value env = 0 ->
   bundleSwap env pool weth params w = ([], Err (Revert "Must send ETH"))) /\
  (0 < msg_value env -> tokenIn params <> weth ->
   bundleSwap env pool weth params w = ([], Err (Revert "tokenIn must be WETH"))) /\
  (0 < msg_value env -> tokenIn params = weth ->
   exists rest r,
     bundleSwap env pool weth params w
       = (RouterCall pool weth params (msg_value env) :: rest, r)).
Proof.
  unfold bundleSwap, bind, require.
  refine (conj _ (conj _ _)).
  - intros ->. reflexivity.
  - intros Hpos Hweth. apply N.ltb_lt in Hpos. apply N.eqb_neq in Hweth.
    rewrite Hpos. cbn. rewrite Hweth. reflexivity.
  - intros Hpos Hweth. apply N.ltb_lt in Hpos. apply N.eqb_eq in Hweth.
    rewrite Hpos. cbn. rewrite Hweth. cbn.
    destruct (router_exactInputSingleWithETH w pool weth params (msg_value env))
      as [[amountOut w']|]; cbn; eauto.
Qed.

(** X2.  A [bundleSwap] call that completes returns what the router returned,
    has called the router once with the whole [msg.value] and then emitted
    one [SwapBundled] event carrying the caller, the two tokens, the declared
    input amount, the output and the bundle id; it sends no ETH back to the
    caller, whatever the difference between [msg.value] and [amountIn]. *)
Theorem bundleSwap_completion env pool weth params (w : World) t amountOut w' :
  bundleSwap env pool weth params w = (t, Ok (amountOut, w')) ->
  router_exactInputSingleWithETH w pool weth params (msg_value env)
    = Some (amountOut, w') /\
  t = [RouterCall pool weth params (msg_value env);
       EmitSwapBundled (msg_sender env) (tokenIn params) (tokenOut params)
         (amountIn params) amountOut
         (keccak256_packed (block_timestamp env) (block_number env)
            (msg_sender env) (amountIn params))] /\
  eth_sent_to_router t = msg_value env /\
  eth_sent_to (msg_sender env) t = 0.
Proof.
  unfold bundleSwap, bind, require, call_router, emit, ret.
  destruct (0 <? msg_value env); cbn; [|discriminate].
  destruct (tokenIn params =? weth); cbn; [|discriminate].
  destruct (router_exactInputSingleWithETH w pool weth params (msg_value env))
    as [[out w1]|]; cbn; [|discriminate].
  intros Heq. injection Heq as <- <- <-.
  refine (conj eq_refl (conj eq_refl (conj _ eq_refl))). cbn. lia.
Qed.

(** X3.  [bundleSwaps] turns a batch down before any external call, in this
    order: an empty batch with "No swaps provided", whatever the value sent;
    a batch whose input amounts add up beyond [uint256] with the arithmetic
    panic; a batch the value does not cover with "Insufficient ETH". *)
Theorem bundleSwaps_rejections env pool weth swaps (w : World) :
  (swaps = [] ->
   bundleSwaps env pool weth swaps w = ([], Err (Revert "No swaps provided"))) /\
  (swaps <> [] -> MAX_UINT256 < sum_amountIn swaps ->
   bundleSwaps env pool weth swaps w = ([], Err (Panic 17))) /\
  (swaps <> [] -> sum_amountIn swaps <= MAX_UINT256 ->
   msg_value env < sum_amountIn swaps ->
   bundleSwaps env pool weth swaps w = ([], Err (Revert "Insufficient ETH"))).
Proof.
  refine (conj _ (conj _ _)).
  - intros ->. reflexivity.
  - intros Hne Hover. unfold bundleSwaps.
    assert (Hlen : (0 <? N.of_nat (List.length swaps)) = true).
    { apply N.ltb_lt. destruct swaps; [contradiction|cbn [List.length]; lia]. }
    rewrite Hlen. cbn [require].
    rewrite (bind_run_Ok _ _ w [] tt w eq_refl).
    rewrite sumLoop_bind by (unfold MAX_UINT256; lia). rewrite N.add_0_l.
    apply N.leb_gt in Hover. now rewrite Hover.
  - intros _ Hfit Hlt. rewrite bundleSwaps_early by assumption.
    apply N.leb_le in Hfit. now rewrite Hfit.
Qed.

(** X4.  In a batch that completes no value is lost or made: the ETH attached
    to the router calls is the sum of the legs' input amounts, and together
    with the ETH sent back to the caller it makes up [msg.value]. *)
Theorem bundleSwaps_conserves_value env pool weth swaps (w : World) t results w' :
  bundleSwaps env pool weth swaps w = (t, Ok (results, w')) ->
  eth_sent_to_router t = sum_amountIn swaps /\
  eth_sent_to_router t + eth_sent_to (msg_sender env) t = msg_value env.
Proof.
  intros Hrun. apply bundleSwaps_Ok in Hrun as (_ & Hsum & Hlen & ->).
  destruct (legs_trace_facts pool weth (msg_sender env) swaps results Hlen)
    as (Hs & _).
  destruct (refund_actions_facts (msg_sender env)
              (msg_value env - sum_amountIn swaps)) as (Hs' & _).
  rewrite eth_sent_to_router_app, eth_sent_to_app, Hs, Hs'.
  rewrite (legs_router_value pool weth swaps results Hlen).
  assert (Hr : eth_sent_to_router
                 (refund_actions (msg_sender env) (msg_value env - sum_amountIn swaps)) = 0).
  { unfold refund_actions. now destruct (0 <? msg_value env - sum_amountIn swaps). }
  rewrite Hr. lia.
Qed.

(** X5.  Whatever its outcome, a [bundleSwaps] call emits no [SwapBundled]
    event and reads no token balance: every action it attempts is a router
    call, a token transfer or an ETH transfer. *)
Theorem bundleSwaps_emits_nothing env pool weth swaps (w : World) :
  let t := fst (bundleSwaps env pool weth swaps w) in
  Forall (fun a => leg_action a \/ is_eth_transfer a = true) t /\
  filter is_event t = [] /\
  filter is_balance_read t = [].
Proof.
  cbv zeta.
  assert (Hall : Forall (fun a => leg_action a \/ is_eth_transfer a = true)
                   (fst (bundleSwaps env pool weth swaps w))).
  { unfold bundleSwaps.
    apply bind_trace_Forall; [rewrite require_trace; constructor|]. intros _ w1.
    apply bind_trace_Forall; [rewrite sumLoop_trace; constructor|]. intros total w2.
    apply bind_trace_Forall; [rewrite require_trace; constructor|]. intros _ w3.
    apply bind_trace_Forall.
    { eapply Forall_impl; [|apply legsLoop_trace]. intros a Ha. now left. }
    intros lr w4. apply bind_trace_Forall; [|intros; constructor].
    destruct (0 <? snd lr); cbn; [|constructor].
    constructor; [now right|constructor]. }
  split; [exact Hall|].
  split.
  - induction Hall as [|a t [[Ha|Ha]|Ha] _ IH]; [reflexivity|..];
      destruct a; try discriminate; cbn; exact IH.
  - induction Hall as [|a t [[Ha|Ha]|Ha] _ IH]; [reflexivity|..];
      destruct a; try discriminate; cbn; exact IH.
Qed.

(** X6.  Every leg of a batch has to name the wrapped-ETH address as its input
    token: a batch that completes has only such legs, and a batch with one
    leg that does not is reverted as a whole. *)
Theorem bundleSwaps_requires_weth_legs env pool weth swaps (w : World) :
  (forall t results w',
     bundleSwaps env pool weth swaps w = (t, Ok (results, w')) ->
     Forall (fun s => tokenIn s = weth) swaps) /\
  (Exists (fun s => tokenIn s <> weth) swaps ->
   exists t e, bundleSwaps env pool weth swaps w = (t, Err e)).
Proof.
  assert (Hok : forall t results w',
            bundleSwaps env pool weth swaps w = (t, Ok (results, w')) ->
            Forall (fun s => tokenIn s = weth) swaps).
  { intros t results w' Hrun. unfold bundleSwaps in Hrun.
    apply bind_Ok in Hrun as (t1 & u1 & w1 & t2 & _ & Hrun & _).
    apply bind_Ok in Hrun as (t3 & total & w2 & t4 & _ & Hrun & _).
    apply bind_Ok in Hrun as (t5 & u5 & w3 & t6 & _ & Hrun & _).
    apply bind_Ok in Hrun as (t7 & [res rem'] & w4 & t8 & Hlegs & _ & _).
    now apply legsLoop_weth in Hlegs. }
  split; [exact Hok|].
  intros Hbad.
  destruct (bundleSwaps env pool weth swaps w) as [t [[results w']|e]] eqn:Hrun;
    [|eauto].
  specialize (Hok t results w' eq_refl).
  apply Exists_exists in Hbad as (s & Hin & Hs).
  rewrite Forall_forall in Hok. now apply Hok in Hin.
Qed.

(** X7.  Padding counts of ten and more all give the same run of
    [bundleSwapWithObfuscation]: the loop stops after ten rounds. *)
Theorem obfuscation_padding_capped env pool weth params d d' (w : World) :
  10 <= d -> 10 <= d' ->
  bundleSwapWithObfuscation env pool weth params d w =
  bundleSwapWithObfuscation env pool weth params d' w.
Proof.
  intros Hd Hd'.
  rewrite (bundleSwapWithObfuscation_cap env pool weth params d).
  rewrite (bundleSwapWithObfuscation_cap env pool weth params d').
  now rewrite (N.min_r d 10), (N.min_r d' 10) by assumption.
Qed.

(** X8.  With a block timestamp that leaves room for the padding arithmetic
    the padding count changes nothing: every count gives the run that no
    padding gives. *)
Theorem obfuscation_padding_no_effect env pool weth params dummyOps (w : World) :
  (block_timestamp env + 10) * 2 <= MAX_UINT256 ->
  bundleSwapWithObfuscation env pool weth params dummyOps w =
  bundleSwapWithObfuscation env pool weth params 0 w.
Proof.
  intros Hts. unfold bundleSwapWithObfuscation.
  rewrite (bind_run_Ok _ _ w [] tt w (dummyLoop_no_effect env dummyOps w 10 0 Hts)).
  now rewrite (bind_run_Ok _ _ w [] tt w (dummyLoop_no_effect env 0 w 10 0 Hts)).
Qed.

(** X9.  A [bundleSwapWithObfuscation] call that completes was sent value and
    names the wrapped-ETH address as input token; it has called the router
    once with the whole [msg.value], then, unless the output token is the
    zero address, transferred the output to the recipient, then emitted one
    [SwapBundled] event. *)
Theorem obfuscation_completion env pool weth params dummyOps (w : World) t amountOut w' :
  bundleSwapWithObfuscation env pool weth params dummyOps w = (t, Ok (amountOut, w')) ->
  0 < msg_value env /\ tokenIn params = weth /\
  t = RouterCall pool weth params (msg_value env) ::
      forwarding (params, amountOut) ++
      [EmitSwapBundled (msg_sender env) (tokenIn params) (tokenOut params)
         (amountIn params) amountOut
         (keccak256_packed (block_timestamp env) (block_number env)
            (msg_sender env) (amountIn params))].
Proof.
  unfold bundleSwapWithObfuscation. intros Hrun.
  apply bind_Ok in Hrun as (t0 & u0 & w0 & t1 & Hpad & Hrun & ->).
  destruct (dummyLoop_outcome env dummyOps w 10 0) as [Hp | Hp];
    rewrite Hp in Hpad; [|discriminate].
  injection Hpad as <- _ <-.
  apply bind_Ok in Hrun as (t2 & u2 & w2 & t3 & Hval & Hrun & ->).
  apply require_Ok in Hval as (Hpos & -> & ->). apply N.ltb_lt in Hpos.
  apply bind_Ok in Hrun as (t4 & u4 & w4 & t5 & Hin & Hrun & ->).
  apply require_Ok in Hin as (Hweth & -> & ->). apply N.eqb_eq in Hweth.
  apply bind_Ok in Hrun as (t6 & out & w6 & t7 & Hcall & Hrun & ->).
  rewrite call_router_run in Hcall. injection Hcall as <- _.
  apply bind_Ok in Hrun as (t8 & u8 & w8 & t9 & Hfwd & Hrun & ->).
  apply forward_Ok in Hfwd as ->.
  apply bind_Ok in Hrun as (ta & ua & wa & tb & Hemit & Hrun & ->).
  unfold emit in Hemit. injection Hemit as <- _ _.
  unfold ret in Hrun. injection Hrun as <- <- _.
  refine (conj Hpos (conj Hweth _)). cbn [app forwarding].
  reflexivity.
Qed.

(** X10.  The padding arithmetic is checked: with a block timestamp whose
    double does not fit [uint256], one round of padding is enough for
    [bundleSwapWithObfuscation] to fail with the arithmetic panic before
    anything else, while without padding the timestamp is of no matter. *)
Theorem obfuscation_padding_overflow env pool weth params dummyOps (w : World) :
  MAX_UINT256 < block_timestamp env * 2 ->
  1 <= dummyOps ->
  bundleSwapWithObfuscation env pool weth params dummyOps w = ([], Err (Panic 17)).
Proof.
  intros Hts Hd. unfold bundleSwapWithObfuscation.
  apply bind_run_Err. cbn [dummyLoop].
  assert (Hcond : (0 <? dummyOps) && (0 <? 10) = true)
    by (apply andb_true_iff; split; apply N.ltb_lt; lia).
  rewrite Hcond. unfold bind at 1. unfold checked_add. rewrite N.add_0_r.
  destruct (block_timestamp env <=? MAX_UINT256); [|reflexivity].
  cbn. unfold bind at 1. unfold checked_mul.
  apply N.leb_gt in Hts. now rewrite Hts.
Qed.

End BundlerMoreClaims.

Section BundlerMoreRuns.

Import Bundler Sim.

Local Open Scope N_scope.

Lemma bundleSwap_guards_witness :
  bundleSwap (call_env 0) POOL WETH (leg USDC ALICE 7) (world 0 0)
    = ([], Err (Revert "Must send ETH")) /\
  bundleSwap (call_env 7) POOL USDC (leg USDC ALICE 7) (world 7 0)
    = ([], Err (Revert "tokenIn must be WETH")).
Proof.
  destruct (bundleSwap_guards (call_env 0) POOL WETH (leg USDC ALICE 7) (world 0 0))
    as (Hzero & _).
  destruct (bundleSwap_guards (call_env 7) POOL USDC (leg USDC ALICE 7) (world 7 0))
    as (_ & Htoken & _).
  split; [apply Hzero; reflexivity|apply Htoken; [reflexivity|discriminate]].
Defined.

Lemma bundleSwap_completion_witness :
  eth_sent_to_router
    (fst (bundleSwap (call_env 7) POOL WETH (leg USDC ALICE 3) (world 7 0))) = 7 /\
  eth_sent_to ALICE
    (fst (bundleSwap (call_env 7) POOL WETH (leg USDC ALICE 3) (world 7 0))) = 0.
Proof.
  edestruct (bundleSwap_completion (call_env 7) POOL WETH (leg USDC ALICE 3) (world 7 0))
    as (_ & _ & Hrouter & Hback); [vm_compute; reflexivity|].
  split; [exact Hrouter|exact Hback].
Defined.

Lemma bundleSwaps_rejections_witness :
  bundleSwaps (call_env 5) POOL WETH [] (world 5 0)
    = ([], Err (Revert "No swaps provided")) /\
  bundleSwaps (call_env 5) POOL WETH
      [leg USDC ALICE MAX_UINT256; leg USDC BOB 1] (world 5 0)
    = ([], Err (Panic 17)) /\
  bundleSwaps (call_env 5) POOL WETH batch (world 5 0)
    = ([], Err (Revert "Insufficient ETH")).
Proof.
  refine (conj _ (conj _ _)).
  - now apply (bundleSwaps_rejections (call_env 5) POOL WETH [] (world 5 0)).
  - apply (bundleSwaps_rejections (call_env 5) POOL WETH
             [leg USDC ALICE MAX_UINT256; leg USDC BOB 1] (world 5 0));
      [discriminate|vm_compute; reflexivity].
  - apply (bundleSwaps_rejections (call_env 5) POOL WETH batch (world 5 0));
      [discriminate|vm_compute; discriminate|vm_compute; reflexivity].
Defined.

Lemma bundleSwaps_conserves_value_witness :
  eth_sent_to_router
    (fst (bundleSwaps (call_env 10) POOL WETH batch (world 10 100000))) = 7 /\
  eth_sent_to_router
    (fst (bundleSwaps (call_env 10) POOL WETH batch (world 10 100000)))
  + eth_sent_to ALICE
      (fst (bundleSwaps (call_env 10) POOL WETH batch (world 10 100000))) = 10.
Proof.
  edestruct (bundleSwaps_conserves_value (call_env 10) POOL WETH batch (world 10 100000))
    as (Hrouter & Hall); [vm_compute; reflexivity|].
  split; [exact Hrouter|exact Hall].
Defined.

Lemma bundleSwaps_requires_weth_legs_witness :
  exists t e,
    bundleSwaps (call_env 10) POOL WETH
      [leg USDC ALICE 3; mkParams USDC WETH 500 BOB 1900000000 4 0 0]
      (world 10 100000) = (t, Err e).
Proof.
  apply (bundleSwaps_requires_weth_legs (call_env 10) POOL WETH
           [leg USDC ALICE 3; mkParams USDC WETH 500 BOB 1900000000 4 0 0]
           (world 10 100000)).
  apply Exists_cons_tl, Exists_cons_hd. discriminate.
Defined.

Lemma obfuscation_padding_capped_witness :
  bundleSwapWithObfuscation (call_env 7) POOL WETH (leg USDC ALICE 7) 15 (world 7 100000)
  = bundleSwapWithObfuscation (call_env 7) POOL WETH (leg USDC ALICE 7) 10 (world 7 100000).
Proof.
  apply (obfuscation_padding_capped (call_env 7) POOL WETH (leg USDC ALICE 7) 15 10
           (world 7 100000)); vm_compute; discriminate.
Defined.

Lemma obfuscation_padding_no_effect_witness :
  bundleSwapWithObfuscation (call_env 7) POOL WETH (leg USDC ALICE 7) 5 (world 7 100000)
  = bundleSwapWithObfuscation (call_env 7) POOL WETH (leg USDC ALICE 7) 0 (world 7 100000).
Proof.
  apply (obfuscation_padding_no_effect (call_env 7) POOL WETH (leg USDC ALICE 7) 5
           (world 7 100000)).
  vm_compute. discriminate.
Defined.

Lemma obfuscation_completion_witness :
  fst (bundleSwapWithObfuscation (call_env 7) POOL WETH (leg USDC ALICE 7) 3
         (world 7 100000))
  = [RouterCall POOL WETH (leg USDC ALICE 7) 7;
     TokenTransfer USDC ALICE 31430;
     EmitSwapBundled ALICE WETH USDC 7 31430 (sim_keccak 1762000000 21000000 ALICE 7)].
Proof.
  edestruct (obfuscation_completion (call_env 7) POOL WETH (leg USDC ALICE 7) 3
               (world 7 100000)) as (_ & _ & Htrace); [vm_compute; reflexivity|].
  exact Htrace.
Defined.

Lemma obfuscation_padding_overflow_witness :
  bundleSwapWithObfuscation (mkEnv ALICE 7 (2 ^ 255) 21000000 BUNDLER) POOL WETH
    (leg USDC ALICE 7) 1 (world 7 100000)
  = ([], Err (Panic 17)).
Proof.
  apply (obfuscation_padding_overflow (mkEnv ALICE 7 (2 ^ 255) 21000000 BUNDLER)
           POOL WETH (leg USDC ALICE 7) 1 (world 7 100000));
    [vm_compute; reflexivity|vm_compute; discriminate].
Defined.

End BundlerMoreRuns.

(* ===================================================================== *)
(** * Further properties of the helpers and of the script stages          *)
(* ===================================================================== *)

Section HelperMoreFacts.

Import SwapHelpers Orchestrator.

Local Open Scope string_scope.
Local Open Scope Z_scope.
Local Open Scope list_scope.

(** ** [toLowerCase] *)

Lemma lower_ascii_idem c : lower_ascii (lower_ascii c) = lower_ascii c.
Proof.
  destruct c as [[] [] [] [] [] [] [] []]; reflexivity.
Qed.

Lemma toLowerCase_idem s : toLowerCase (toLowerCase s) = toLowerCase s.
Proof.
  induction s as [|c s IH]; [reflexivity|].
  cbn [toLowerCase]. now rewrite lower_ascii_idem, IH.
Qed.

Lemma toLowerCase_app s1 s2 :
  toLowerCase (s1 ++ s2)%string = (toLowerCase s1 ++ toLowerCase s2)%string.
Proof.
  induction s1 as [|c s1 IH]; [reflexivity|].
  cbn [toLowerCase append]. now rewrite IH.
Qed.

Lemma toLowerCase_empty s : toLowerCase s = "" <-> s = "".
Proof. destruct s; split; intros Heq; try reflexivity; discriminate. Qed.

(** A text with a capital in it is no lower-cased text. *)
Lemma not_lowercase_neq k s :
  toLowerCase k <> k -> (k =? toLowerCase s)%string = false.
Proof.
  intros Hk. apply String.eqb_neq. intros ->. apply Hk, toLowerCase_idem.
Qed.

(** ** [includes] is substring search *)

Lemma prefix_app s rest : prefix s (s ++ rest)%string = true.
Proof.
  induction s as [|c s IH]; [now destruct rest|].
  cbn [append prefix]. now destruct (ascii_dec c c).
Qed.

Lemma prefix_inv sub : forall s,
  prefix sub s = true -> exists rest, s = (sub ++ rest)%string.
Proof.
  induction sub as [|c sub IH]; intros s Hp.
  - exists s. reflexivity.
  - destruct s as [|d s]; [discriminate|]. cbn [prefix] in Hp.
    destruct (ascii_dec c d) as [->|]; [|discriminate].
    destruct (IH s Hp) as [rest ->]. now exists rest.
Qed.

Lemma includes_unfold s sub :
  includes s sub =
  if prefix sub s then true
  else match s with
       | EmptyString => false
       | String _ rest => includes rest sub
       end.
Proof. now destruct s. Qed.

Lemma includes_app before sub after :
  includes (before ++ sub ++ after)%string sub = true.
Proof.
  induction before as [|c before IH].
  - cbn [append]. now rewrite includes_unfold, prefix_app.
  - rewrite includes_unfold. cbn [append].
    now destruct (prefix sub (String c (before ++ sub ++ after))).
Qed.

Lemma includes_inv sub : forall s,
  includes s sub = true ->
  exists before after, s = (before ++ sub ++ after)%string.
Proof.
  induction s as [|c s IH]; intros Hinc; rewrite includes_unfold in Hinc.
  - destruct (prefix sub "") eqn:Hp; [|discriminate].
    apply prefix_inv in Hp as [after ->]. now exists "", after.
  - destruct (prefix sub (String c s)) eqn:Hp.
    + apply prefix_inv in Hp as [after ->]. now exists "", after.
    + destruct (IH Hinc) as (before & after & ->).
      now exists (String c before), after.
Qed.

(** ** The outcome of [enforcePrivateRPC] once the chain id is known *)

Lemma enforcePrivateRPC_outcome chainId network rpcUrl :
  exists out,
    enforcePrivateRPC (inl chainId) network rpcUrl =
    (out,
     if isProductionNetwork chainId && negb (isPrivateRPC rpcUrl)
        && truthy (getPrivateRPCUrl network)
     then Throw (Error "Private RPC required for production network")
     else Return (isPrivateRPC rpcUrl)).
Proof.
  unfold enforcePrivateRPC. cbn [await bind ret].
  destruct (toLowerCase network =? "sepolia")%string eqn:Hname.
  - apply String.eqb_eq, getPrivateRPCUrl_sepolia in Hname. rewrite Hname.
    rewrite andb_false_r.
    destruct (isPrivateRPC rpcUrl); destruct (isProductionNetwork chainId);
      cbn; eauto.
  - destruct (isProductionNetwork chainId); destruct (isPrivateRPC rpcUrl);
      destruct (truthy (getPrivateRPCUrl network)); cbn; eauto.
Qed.

End HelperMoreFacts.

Section HelperMoreClaims.

Import SwapHelpers Orchestrator.

Local Open Scope string_scope.
Local Open Scope Z_scope.
Local Open Scope list_scope.

(** X11.  [isPrivateRPC] is a search for six words: an endpoint is taken as
    private exactly when its lower-cased text contains, at any place, one of
    flashbots, flashtrades, eden, bloxroute, private, protect. *)
Theorem isPrivateRPC_keyword_anywhere rpcUrl :
  isPrivateRPC rpcUrl = true <->
  exists before word after,
    In word private_keywords /\
    toLowerCase rpcUrl = (before ++ word ++ after)%string.
Proof.
  unfold isPrivateRPC. split.
  - destruct (rpcUrl =? "")%string; [discriminate|]. cbv zeta.
    intros Hany. repeat (apply orb_true_iff in Hany as [Hany|Hany]);
      apply includes_inv in Hany as (before & after & Heq);
      exists before; eexists; exists after; (split; [|exact Heq]); cbn; auto 10.
  - intros (before & word & after & Hin & Heq).
    assert (Hword : word <> "").
    { intros ->. cbn in Hin. intuition discriminate. }
    assert (Hne : (rpcUrl =? "")%string = false).
    { apply String.eqb_neq. intros ->. cbn in Heq.
      destruct before; [destruct word; [contradiction|discriminate]|discriminate]. }
    rewrite Hne. cbv zeta. rewrite Heq.
    cbn in Hin. destruct Hin as [<-|[<-|[<-|[<-|[<-|[<-|[]]]]]]];
      rewrite includes_app; rewrite ?orb_true_r; reflexivity.
Qed.

Lemma isPrivateRPC_keyword_anywhere_witness :
  isPrivateRPC "https://Sweden-node.example/RPC" = true.
Proof.
  apply (isPrivateRPC_keyword_anywhere "https://Sweden-node.example/RPC").
  exists "https://sw", "eden", "-node.example/rpc". split; [cbn; auto|reflexivity].
Defined.

(** X12.  [isPrivateRPC] does not tell letter cases apart: an endpoint and its
    lower-cased spelling are classed alike. *)
Theorem isPrivateRPC_case_insensitive rpcUrl :
  isPrivateRPC (toLowerCase rpcUrl) = isPrivateRPC rpcUrl.
Proof.
  unfold isPrivateRPC. rewrite toLowerCase_idem.
  destruct rpcUrl; reflexivity.
Qed.

(** X13.  [getPrivateRPCUrl] goes by the lower-cased network name: it gives
    the Flashbots endpoint for mainnet, an inherited object for the two
    lower-case names every object answers to, and [null] for every other
    name, sepolia included; the Eden endpoint is never given. *)
Theorem getPrivateRPCUrl_table network :
  getPrivateRPCUrl network =
  if (toLowerCase network =? "mainnet")%string
  then JsString "https://rpc.flashbots.net"
  else if (toLowerCase network =? "constructor")%string
          || (toLowerCase network =? "__proto__")%string
       then JsObject
       else JsNull.
Proof.
  unfold getPrivateRPCUrl. cbv zeta.
  pose proof (not_lowercase_neq "hasOwnProperty" network ltac:(discriminate)) as H1.
  pose proof (not_lowercase_neq "isPrototypeOf" network ltac:(discriminate)) as H2.
  pose proof (not_lowercase_neq "propertyIsEnumerable" network ltac:(discriminate)) as H3.
  pose proof (not_lowercase_neq "toLocaleString" network ltac:(discriminate)) as H4.
  pose proof (not_lowercase_neq "toString" network ltac:(discriminate)) as H5.
  pose proof (not_lowercase_neq "valueOf" network ltac:(discriminate)) as H6.
  pose proof (not_lowercase_neq "__defineGetter__" network ltac:(discriminate)) as H7.
  pose proof (not_lowercase_neq "__defineSetter__" network ltac:(discriminate)) as H8.
  pose proof (not_lowercase_neq "__lookupGetter__" network ltac:(discriminate)) as H9.
  pose proof (not_lowercase_neq "__lookupSetter__" network ltac:(discriminate)) as H10.
  generalize dependent (toLowerCase network). intros n H1 H2 H3 H4 H5 H6 H7 H8 H9 H10.
  unfold get_property, flashtrades, flashbots, eden, Object_prototype_keys.
  cbn [own_property existsb].
  rewrite H1, H2, H3, H4, H5, H6, H7, H8, H9, H10.
  rewrite (String.eqb_sym "sepolia" n), (String.eqb_sym "mainnet" n),
    (String.eqb_sym "constructor" n), (String.eqb_sym "__proto__" n).
  destruct (String.eqb_spec n "mainnet") as [->|Hmain]; [reflexivity|].
  destruct (String.eqb_spec n "sepolia") as [->|Hsep]; [reflexivity|].
  destruct (n =? "constructor")%string; destruct (n =? "__proto__")%string; reflexivity.
Qed.

(** X14.  [createPrivateProvider] prefers a custom endpoint, whatever the
    network: it constructs the provider on it, and what the constructor
    throws is thrown on.  Without a custom endpoint it returns [null] for a
    network named sepolia, constructing nothing, and constructs the provider
    on the Flashbots endpoint for mainnet, in any letter case. *)
Theorem createPrivateProvider_choice {P : Type}
  (newJsonRpcProvider : JsValue -> P + JsError) network customRPC :
  (truthy customRPC = true ->
   createPrivateProvider newJsonRpcProvider network customRPC =
   match newJsonRpcProvider customRPC with
   | inl provider => ([], Return (Some provider))
   | inr e => ([], Throw e)
   end) /\
  (truthy customRPC = false -> toLowerCase network = "sepolia" ->
   createPrivateProvider newJsonRpcProvider network customRPC = ([], Return None)) /\
  (truthy customRPC = false -> toLowerCase network = "mainnet" ->
   createPrivateProvider newJsonRpcProvider network customRPC =
   match newJsonRpcProvider (JsString "https://rpc.flashbots.net") with
   | inl provider => ([], Return (Some provider))
   | inr e => ([], Throw e)
   end).
Proof.
  unfold createPrivateProvider. refine (conj _ (conj _ _)).
  - intros Hc. rewrite Hc, Hc. cbn [negb]. unfold bind, await.
    now destruct (newJsonRpcProvider customRPC).
  - intros Hc Hname. rewrite Hc. cbv zeta.
    now rewrite (getPrivateRPCUrl_sepolia network Hname).
  - intros Hc Hname. rewrite Hc. unfold getPrivateRPCUrl. rewrite Hname.
    cbn. unfold bind, await.
    now destruct (newJsonRpcProvider (JsString "https://rpc.flashbots.net")).
Qed.

Lemma createPrivateProvider_choice_witness :
  createPrivateProvider Sim.provider_on "Sepolia" (JsString "https://relay.example") =
    ([], Return (Some "https://relay.example")) /\
  createPrivateProvider Sim.provider_on "Sepolia" JsNull = ([], Return None) /\
  createPrivateProvider Sim.provider_on "MAINNET" JsNull =
    ([], Return (Some "https://rpc.flashbots.net")).
Proof.
  refine (conj _ (conj _ _)).
  - now apply (createPrivateProvider_choice Sim.provider_on "Sepolia"
                 (JsString "https://relay.example")).
  - now apply (createPrivateProvider_choice Sim.provider_on "Sepolia" JsNull).
  - now apply (createPrivateProvider_choice Sim.provider_on "MAINNET" JsNull).
Defined.

(** X15.  [enforcePrivateRPC] throws in two cases only: the chain id cannot be
    read, and the error of that read is passed on; or the chain is the
    production one, the endpoint is not taken as private and the table lists
    an endpoint for the network. *)
Theorem enforcePrivateRPC_throws_iff getNetwork network rpcUrl e :
  (exists out, enforcePrivateRPC getNetwork network rpcUrl = (out, Throw e)) <->
  getNetwork = inr e \/
  exists chainId,
    getNetwork = inl chainId /\
    isProductionNetwork chainId = true /\
    isPrivateRPC rpcUrl = false /\
    truthy (getPrivateRPCUrl network) = true /\
    e = Error "Private RPC required for production network".
Proof.
  destruct getNetwork as [chainId|e0].
  - destruct (enforcePrivateRPC_outcome chainId network rpcUrl) as [out0 Hrun].
    rewrite Hrun. split.
    + intros [out Heq]. right. exists chainId.
      destruct (isProductionNetwork chainId); destruct (isPrivateRPC rpcUrl);
        destruct (truthy (getPrivateRPCUrl network)); cbn in Heq; try discriminate.
      injection Heq as _ <-. auto.
    + intros [Heq | (c & Hc & Hprod & Hpub & Halt & ->)]; [discriminate|].
      injection Hc as <-. rewrite Hprod, Hpub, Halt. cbn. eauto.
  - split.
    + intros [out Heq]. left. cbn in Heq. now injection Heq as _ <-.
    + intros [Heq | (c & Hc & _)]; [|discriminate].
      injection Heq as <-. now exists [].
Qed.

Lemma enforcePrivateRPC_throws_iff_witness :
  exists out,
    enforcePrivateRPC (inr (TransportError "timeout")) "mainnet" "https://rpc.flashbots.net"
    = (out, Throw (TransportError "timeout")).
Proof.
  apply (enforcePrivateRPC_throws_iff (inr (TransportError "timeout")) "mainnet"
           "https://rpc.flashbots.net" (TransportError "timeout")).
  now left.
Defined.

(** X16.  Whenever [enforcePrivateRPC] returns, what it returns is
    [isPrivateRPC(rpcUrl)]: the network and the chain only decide between
    returning and throwing, and over what is written to the console. *)
Theorem enforcePrivateRPC_returns_isPrivateRPC getNetwork network rpcUrl out b :
  enforcePrivateRPC getNetwork network rpcUrl = (out, Return b) ->
  b = isPrivateRPC rpcUrl.
Proof.
  destruct getNetwork as [chainId|e0]; [|discriminate].
  destruct (enforcePrivateRPC_outcome chainId network rpcUrl) as [out0 Hrun].
  rewrite Hrun. intros Heq.
  destruct (isProductionNetwork chainId && negb (isPrivateRPC rpcUrl)
            && truthy (getPrivateRPCUrl network)); [discriminate|].
  now injection Heq as _ <-.
Qed.

Lemma enforcePrivateRPC_returns_isPrivateRPC_witness :
  false = isPrivateRPC "https://rpc.sepolia.org".
Proof.
  eapply (enforcePrivateRPC_returns_isPrivateRPC (inl 11155111) "sepolia"
            "https://rpc.sepolia.org").
  reflexivity.
Defined.

(** X17.  Off the production chain [enforcePrivateRPC] never throws: it
    returns [isPrivateRPC(rpcUrl)], and writes nothing but the two-line
    Sepolia notice, which it writes when the network is named sepolia and
    the endpoint is not taken as private. *)
Theorem enforcePrivateRPC_test_network chainId network rpcUrl :
  isProductionNetwork chainId = false ->
  enforcePrivateRPC (inl chainId) network rpcUrl =
  (if (toLowerCase network =? "sepolia")%string && negb (isPrivateRPC rpcUrl)
   then [ConsoleLog "  Sepolia: Using bundler + slippage protection for MEV mitigation";
         ConsoleLog "     (Private RPC not available for Sepolia, but bundler provides protection)"]
   else [],
   Return (isPrivateRPC rpcUrl)).
Proof.
  intros Htest. unfold enforcePrivateRPC. cbn [await bind ret]. rewrite Htest.
  destruct (toLowerCase network =? "sepolia")%string;
    destruct (isPrivateRPC rpcUrl); reflexivity.
Qed.

Lemma enforcePrivateRPC_test_network_witness :
  enforcePrivateRPC (inl 11155111) "hardhat" "http://127.0.0.1:8545" = ([], Return false).
Proof.
  apply (enforcePrivateRPC_test_network 11155111 "hardhat" "http://127.0.0.1:8545").
  reflexivity.
Defined.

(** X18.  The route stage never lets an exception through: it ends with the
    flag [isPrivateRPC(rpcUrl)], or, exactly when [enforcePrivateRPC] throws,
    with the error's message as last console line and exit code 1. *)
Theorem routeStage_never_throws getNetwork network rpcUrl :
  (exists out, routeStage getNetwork network rpcUrl = (out, Return (isPrivateRPC rpcUrl))) \/
  (exists out e,
     enforcePrivateRPC getNetwork network rpcUrl = (out, Throw e) /\
     routeStage getNetwork network rpcUrl
       = (out ++ [ConsoleError (message e)], Exit 1)).
Proof.
  unfold routeStage.
  destruct getNetwork as [chainId|e0].
  - destruct (enforcePrivateRPC_outcome chainId network rpcUrl) as [out0 Hrun].
    rewrite Hrun.
    destruct (isProductionNetwork chainId && negb (isPrivateRPC rpcUrl)
              && truthy (getPrivateRPCUrl network)).
    + right. exists out0, (Error "Private RPC required for production network").
      split; reflexivity.
    + left. exists out0. cbn. now rewrite !app_nil_r.
  - right. exists [], e0. split; reflexivity.
Qed.

End HelperMoreClaims.

Section SlippageMoreClaims.

Import SwapHelpers Orchestrator.

Local Open Scope string_scope.
Local Open Scope Z_scope.
Local Open Scope list_scope.

(** X19.  For a quote [q > 0] and a tolerance within 0..10000 the minimum
    output lies between 0 and the quote: it is the quote itself at tolerance
    0, 0 at tolerance 10000, and strictly below the quote for every positive
    tolerance. *)
Theorem calculateMinOutput_bounds q t :
  0 < q ->
  0 <= t <= 10000 ->
  exists m,
    calculateMinOutput (Some q) (JsInt t) = ([], Return m) /\
    0 <= m <= q /\
    (t = 0 -> m = q) /\
    (t = 10000 -> m = 0) /\
    (0 < t -> m < q).
Proof.
  intros Hq Ht. exists (q * (10000 - t) / 10000).
  rewrite calculateMinOutput_run by lia.
  rewrite Z.quot_div_nonneg by nia.
  assert (Hexp : q * (10000 - t) = 10000 * q - q * t) by ring.
  assert (Hqt : 0 <= q * t) by nia.
  refine (conj eq_refl (conj _ (conj _ (conj _ _)))).
  - split; [apply Z.div_pos; nia|].
    apply Z.div_le_upper_bound; lia.
  - intros ->. replace (q * (10000 - 0)) with (q * 10000) by ring.
    apply Z.div_mul. lia.
  - intros ->. now rewrite Z.sub_diag, Z.mul_0_r.
  - intros Hpos. assert (0 < q * t) by nia.
    apply Z.div_lt_upper_bound; lia.
Qed.

Lemma calculateMinOutput_bounds_witness :
  exists m,
    calculateMinOutput (Some 4490000) (JsInt 200) = ([], Return m) /\ 0 <= m <= 4490000.
Proof.
  destruct (calculateMinOutput_bounds 4490000 200) as (m & Hrun & Hm & _); [lia..|].
  exists m. now split.
Defined.

(** X20.  The minimum output does not grow with the tolerance and does not
    shrink with the quote. *)
Theorem calculateMinOutput_monotone q1 q2 t1 t2 m1 m2 :
  0 < q1 <= q2 ->
  0 <= t1 <= t2 -> t2 <= 10000 ->
  calculateMinOutput (Some q1) (JsInt t2) = ([], Return m1) ->
  calculateMinOutput (Some q2) (JsInt t1) = ([], Return m2) ->
  m1 <= m2.
Proof.
  intros Hq Ht Hmax H1 H2.
  rewrite calculateMinOutput_run in H1 by lia.
  rewrite calculateMinOutput_run in H2 by lia.
  assert (Hm1 : m1 = Z.quot (q1 * (10000 - t2)) 10000) by congruence.
  assert (Hm2 : m2 = Z.quot (q2 * (10000 - t1)) 10000) by congruence.
  subst m1 m2. clear H1 H2.
  assert (Hn1 : 0 <= q1 * (10000 - t2)) by (apply Z.mul_nonneg_nonneg; lia).
  assert (Hn2 : 0 <= q2 * (10000 - t1)) by (apply Z.mul_nonneg_nonneg; lia).
  rewrite !Z.quot_div_nonneg by lia.
  apply Z.div_le_mono; [lia|].
  apply Z.mul_le_mono_nonneg; lia.
Qed.

Lemma calculateMinOutput_monotone_witness : 4400200 <= 8890200.
Proof.
  apply (calculateMinOutput_monotone 4490000 8980000 100 200 4400200 8890200);
    [lia | lia | lia | reflexivity | reflexivity].
Defined.

(** X21.  Called without a tolerance, [calculateMinOutput] keeps 99 percent:
    for a quote [q > 0] it returns [floor (q * 99 / 100)]. *)
Theorem calculateMinOutput_default_one_percent q :
  0 < q ->
  calculateMinOutput_default (Some q) = ([], Return (q * 99 / 100)).
Proof.
  intros Hq. unfold calculateMinOutput_default.
  rewrite calculateMinOutput_run by lia.
  rewrite Z.quot_div_nonneg by lia.
  replace (q * (10000 - 100)) with (q * 99 * 100) by ring.
  replace 10000 with (100 * 100) by reflexivity.
  now rewrite Z.div_mul_cancel_r by lia.
Qed.

Lemma calculateMinOutput_default_one_percent_witness :
  calculateMinOutput_default (Some 4490000) = ([], Return 4445100).
Proof. apply (calculateMinOutput_default_one_percent 4490000). lia. Defined.

End SlippageMoreClaims.

Section QuoteMoreClaims.

Import SwapHelpers Orchestrator.

Local Open Scope string_scope.
Local Open Scope Z_scope.
Local Open Scope list_scope.

Variable floor_times_price : Z -> Z -> JsNumber.
Variable floor_over_price : Z -> Z -> JsNumber.
Variable formatUnits : Z -> Z -> string.
Variable percent : JsNumber -> string.

(** X22.  [getSwapQuote] asks the quoter first: when a quoter address is set
    and its call answers, that answer is the quote and the pool is not
    consulted; when no quoter is set, or its call is rejected, the quote is
    whatever [getQuoteFromPool] gives. *)
Theorem getSwapQuote_oracle_first QUOTER_V2 pool tokenIn tokenOut amountIn fee provider :
  (forall quoter amountOut,
     QUOTER_V2 = Some quoter -> quoter <> "" ->
     quoteExactInputSingle provider quoter tokenIn tokenOut fee amountIn 0 = inl amountOut ->
     getSwapQuote floor_times_price floor_over_price QUOTER_V2
       pool tokenIn tokenOut amountIn fee provider = ([], Return (Some amountOut))) /\
  ((QUOTER_V2 = None \/ QUOTER_V2 = Some "" \/
    exists quoter e,
      QUOTER_V2 = Some quoter /\
      quoteExactInputSingle provider quoter tokenIn tokenOut fee amountIn 0 = inr e) ->
   getSwapQuote floor_times_price floor_over_price QUOTER_V2
     pool tokenIn tokenOut amountIn fee provider
   = getQuoteFromPool floor_times_price floor_over_price
       pool tokenIn tokenOut amountIn provider).
Proof.
  destruct (getQuoteFromPool_total floor_times_price floor_over_price
              pool tokenIn tokenOut amountIn provider) as [q Hq].
  split.
  - intros quoter amountOut -> Hset Hcall. unfold getSwapQuote.
    apply String.eqb_neq in Hset. rewrite Hset. cbn [negb].
    unfold bind, await. rewrite Hcall. reflexivity.
  - unfold getSwapQuote. rewrite Hq.
    intros [-> | [-> | (quoter & e & -> & Hcall)]]; [reflexivity..|].
    destruct (negb (quoter =? "")%string); [|reflexivity].
    unfold bind, await. rewrite Hcall. reflexivity.
Qed.

(** X23.  [getQuoteFromPool] with both pool reads answered: the direction is
    chosen by comparing the pool's first token with the input token without
    regard to letter case, multiplying by the price when they agree and
    dividing when they do not; an outcome of that arithmetic that is no
    finite integer gives no quote instead of an exception. *)
Theorem getQuoteFromPool_direction poolAddress tokenIn tokenOut amountIn provider
  sqrtPriceX96 token0' :
  slot0_sqrtPriceX96 provider poolAddress = inl sqrtPriceX96 ->
  token0 provider poolAddress = inl token0' ->
  getQuoteFromPool floor_times_price floor_over_price
    poolAddress tokenIn tokenOut amountIn provider
  = ([], Return
           match (if (toLowerCase token0' =? toLowerCase tokenIn)%string
                  then floor_times_price amountIn sqrtPriceX96
                  else floor_over_price amountIn sqrtPriceX96) with
           | JsInt amountOut => Some amountOut
           | JsNonInteger => None
           end).
Proof.
  intros Hslot Htoken. unfold getQuoteFromPool, bind, await.
  rewrite Hslot, Htoken. cbn.
  destruct (toLowerCase token0' =? toLowerCase tokenIn)%string.
  - now destruct (floor_times_price amountIn sqrtPriceX96).
  - now destruct (floor_over_price amountIn sqrtPriceX96).
Qed.

(** X24.  With an integer tolerance within 0..10000 the quote stage always
    comes through, with a minimum output that is never negative: 0 when
    there is no quote or the quote is not positive, and otherwise
    [floor (q * (10000 - t) / 10000)], which is at most the quote [q]. *)
Theorem quoteStage_valid_tolerance
  QUOTER_V2 POOL_ADDRESS WETH_ADDRESS USDC_ADDRESS amountIn POOL_FEE
  t usdcDecimals usdcSymbol provider :
  0 <= t <= 10000 ->
  exists out quote m,
    getSwapQuote floor_times_price floor_over_price QUOTER_V2
      POOL_ADDRESS WETH_ADDRESS USDC_ADDRESS amountIn POOL_FEE provider
      = ([], Return quote) /\
    quoteStage floor_times_price floor_over_price formatUnits percent QUOTER_V2
      POOL_ADDRESS WETH_ADDRESS USDC_ADDRESS amountIn POOL_FEE
      (JsInt t) usdcDecimals usdcSymbol provider = (out, Return m) /\
    0 <= m /\
    match quote with
    | Some q => if 0 <? q then m = q * (10000 - t) / 10000 /\ m <= q else m = 0
    | None => m = 0
    end.
Proof.
  intros Ht.
  destruct (getSwapQuote_total floor_times_price floor_over_price QUOTER_V2
              POOL_ADDRESS WETH_ADDRESS USDC_ADDRESS amountIn POOL_FEE provider)
    as [quote Hquote].
  unfold quoteStage. rewrite Hquote. cbn [bind console_log].
  destruct quote as [q|].
  - destruct (0 <? q) eqn:Hb.
    + assert (Hpos : 0 < q) by (now apply Z.ltb_lt).
      assert (Hnz : (q =? 0) = false) by (apply Z.eqb_neq; lia).
      rewrite Hnz. cbn [negb andb].
      rewrite calculateMinOutput_run by lia.
      assert (Hn : 0 <= q * (10000 - t)) by (apply Z.mul_nonneg_nonneg; lia).
      rewrite Z.quot_div_nonneg by lia.
      assert (Hqt : 0 <= q * t) by (apply Z.mul_nonneg_nonneg; lia).
      assert (Hexp : q * (10000 - t) = 10000 * q - q * t) by ring.
      eexists. exists (Some q), (q * (10000 - t) / 10000).
      rewrite Hb.
      refine (conj eq_refl (conj _ (conj _ (conj eq_refl _)))).
      * cbn. reflexivity.
      * apply Z.div_pos; lia.
      * apply Z.div_le_upper_bound; lia.
    + rewrite andb_false_r. eexists. exists (Some q), 0. rewrite Hb.
      refine (conj eq_refl (conj _ (conj _ eq_refl))); [cbn; reflexivity|lia].
  - eexists. exists None, 0.
    refine (conj eq_refl (conj _ (conj _ eq_refl))); [cbn; reflexivity|lia].
Qed.

(** X25.  With a tolerance that is no integer (a [SLIPPAGE_BPS] that did not
    parse) the quote stage throws a [RangeError] as soon as there is a
    positive quote, after its first console line only; with no quote, or a
    quote that is not positive, it comes through with minimum output 0 as if
    the tolerance were in order. *)
Theorem quoteStage_unparsed_tolerance
  QUOTER_V2 POOL_ADDRESS WETH_ADDRESS USDC_ADDRESS amountIn POOL_FEE
  usdcDecimals usdcSymbol provider quote :
  getSwapQuote floor_times_price floor_over_price QUOTER_V2
    POOL_ADDRESS WETH_ADDRESS USDC_ADDRESS amountIn POOL_FEE provider
    = ([], Return quote) ->
  let stage :=
    quoteStage floor_times_price floor_over_price formatUnits percent QUOTER_V2
      POOL_ADDRESS WETH_ADDRESS USDC_ADDRESS amountIn POOL_FEE
      JsNonInteger usdcDecimals usdcSymbol provider in
  let unprotected :=
    ([ConsoleLog "Getting swap quote...";
      ConsoleLog "  Could not get quote, using 0 as minimum (no slippage protection)";
      ConsoleLog ""], Return 0) in
  match quote with
  | Some q =>
      if 0 <? q
      then exists text,
             stage = ([ConsoleLog "Getting swap quote..."], Throw (RangeError text))
      else stage = unprotected
  | None => stage = unprotected
  end.
Proof.
  intros Hquote. cbv zeta. unfold quoteStage. rewrite Hquote. cbn [bind console_log].
  destruct quote as [q|]; [|reflexivity].
  destruct (0 <? q) eqn:Hpos.
  - apply Z.ltb_lt in Hpos.
    assert (Hnz : (q =? 0) = false) by (apply Z.eqb_neq; lia).
    rewrite Hnz. unfold calculateMinOutput. rewrite Hnz. eexists. reflexivity.
  - now rewrite andb_false_r.
Qed.

End QuoteMoreClaims.

Section QuoteMoreRuns.

Import SwapHelpers Orchestrator.

Local Open Scope string_scope.
Local Open Scope Z_scope.
Local Open Scope list_scope.

Lemma quoteStage_valid_tolerance_witness :
  exists out m,
    quoteStage Sim.no_float Sim.no_float Sim.show_units Sim.show_percent
      (Some "0xQuoter") "0xPool" "0xWeth" "0xUsdc" 1000 500 (JsInt 200) 6 "USDC"
      Sim.provider_quoter = (out, Return m) /\ 0 <= m.
Proof.
  destruct (quoteStage_valid_tolerance Sim.no_float Sim.no_float
              Sim.show_units Sim.show_percent
              (Some "0xQuoter") "0xPool" "0xWeth" "0xUsdc" 1000 500 200 6 "USDC"
              Sim.provider_quoter) as (out & quote & m & _ & Hrun & Hm & _); [lia|].
  exists out, m. split; assumption.
Defined.

Lemma getSwapQuote_oracle_first_witness :
  getSwapQuote Sim.no_float Sim.no_float (Some "0xQuoter")
    "0xPool" "0xWeth" "0xUsdc" 1000 500 Sim.provider_quoter
  = ([], Return (Some 4490000)).
Proof.
  destruct (getSwapQuote_oracle_first Sim.no_float Sim.no_float (Some "0xQuoter")
              "0xPool" "0xWeth" "0xUsdc" 1000 500 Sim.provider_quoter) as [Hfirst _].
  apply (Hfirst "0xQuoter" 4490000); [reflexivity|discriminate|reflexivity].
Defined.

Lemma getQuoteFromPool_direction_witness :
  getQuoteFromPool (fun a p => JsInt (a * 4)) (fun a p => JsNonInteger)
    "0xPool" "0xWETH" "0xUsdc" 1000
    (mkProvider (fun _ _ _ _ _ _ => inr (CallException "no quoter"))
                (fun _ => inl 158456325028528675187087900672)
                (fun _ => inl "0xweth"))
  = ([], Return (Some 4000)).
Proof.
  apply (getQuoteFromPool_direction (fun a p => JsInt (a * 4)) (fun a p => JsNonInteger)
           "0xPool" "0xWETH" "0xUsdc" 1000
           (mkProvider (fun _ _ _ _ _ _ => inr (CallException "no quoter"))
                       (fun _ => inl 158456325028528675187087900672)
                       (fun _ => inl "0xweth"))
           158456325028528675187087900672 "0xweth"); reflexivity.
Defined.

Lemma quoteStage_unparsed_tolerance_witness :
  exists text,
    quoteStage Sim.no_float Sim.no_float Sim.show_units Sim.show_percent
      (Some "0xQuoter") "0xPool" "0xWeth" "0xUsdc" 1000 500 JsNonInteger 6 "USDC"
      Sim.provider_quoter
    = ([ConsoleLog "Getting swap quote..."], Throw (RangeError text)).
Proof.
  apply (quoteStage_unparsed_tolerance Sim.no_float Sim.no_float
           Sim.show_units Sim.show_percent
           (Some "0xQuoter") "0xPool" "0xWeth" "0xUsdc" 1000 500 6 "USDC"
           Sim.provider_quoter (Some 4490000)).
  reflexivity.
Defined.

End QuoteMoreRuns.

Section SubmitMoreClaims.

Import SwapHelpers Orchestrator.

Local Open Scope string_scope.
Local Open Scope Z_scope.
Local Open Scope list_scope.

Variable Tx : Type.
Variable RpcProvider : Type.
Variable newJsonRpcProvider : string -> RpcProvider + JsError.
Variable sendPrivate : RpcProvider -> string -> Tx + JsError.
Variable sendStandard : Tx + JsError.

Lemma isPrivateRPC_not_empty rpcUrl :
  isPrivateRPC rpcUrl = true -> (rpcUrl =? "")%string = false.
Proof. unfold isPrivateRPC. now destruct (rpcUrl =? "")%string. Qed.

(** X26.  The submission fails only if the submission through the standard
    endpoint fails, and then with that error: nothing that goes wrong on the
    private path (no provider, no key, a rejecting relay) ends it, and it
    never exits the process.  So whenever the standard submission would be
    accepted, the stage hands back a transaction. *)
Theorem submitStage_fails_only_with_standard privateRPCUrl PRIVATE_RPC_URL PRIVATE_KEY :
  (forall out e,
     submitStage Tx RpcProvider newJsonRpcProvider sendPrivate sendStandard
       privateRPCUrl PRIVATE_RPC_URL PRIVATE_KEY = (out, Throw e) ->
     sendStandard = inr e) /\
  (forall out code,
     submitStage Tx RpcProvider newJsonRpcProvider sendPrivate sendStandard
       privateRPCUrl PRIVATE_RPC_URL PRIVATE_KEY <> (out, Exit code)) /\
  (forall tx, sendStandard = inl tx ->
     exists out tx',
       submitStage Tx RpcProvider newJsonRpcProvider sendPrivate sendStandard
         privateRPCUrl PRIVATE_RPC_URL PRIVATE_KEY = (out, Return tx')).
Proof.
  unfold submitStage. cbv zeta.
  set (final := match privateRPCUrl with
                | Some url => if negb (url =? "")%string then url else PRIVATE_RPC_URL
                | None => PRIVATE_RPC_URL
                end).
  destruct (negb (final =? "")%string && isPrivateRPC final).
  - unfold try_catch, bind, await, throw, ret, console_log.
    destruct (newJsonRpcProvider final) as [p|e1]; cbn.
    + destruct PRIVATE_KEY as [key|]; [destruct (negb (key =? "")%string)|]; cbn.
      * destruct (sendPrivate p key) as [tx1|e2]; cbn.
        -- refine (conj _ (conj _ _)); [discriminate|discriminate|eauto].
        -- destruct sendStandard as [tx2|e3]; cbn;
             (refine (conj _ (conj _ _));
              [intros out e Heq; try discriminate; injection Heq as _ <-; reflexivity
              |discriminate
              |intros tx Htx; try discriminate; eauto]).
      * destruct sendStandard as [tx2|e3]; cbn;
          (refine (conj _ (conj _ _));
           [intros out e Heq; try discriminate; injection Heq as _ <-; reflexivity
           |discriminate
           |intros tx Htx; try discriminate; eauto]).
      * destruct sendStandard as [tx2|e3]; cbn;
          (refine (conj _ (conj _ _));
           [intros out e Heq; try discriminate; injection Heq as _ <-; reflexivity
           |discriminate
           |intros tx Htx; try discriminate; eauto]).
    + destruct sendStandard as [tx2|e3]; cbn;
        (refine (conj _ (conj _ _));
         [intros out e Heq; try discriminate; injection Heq as _ <-; reflexivity
         |discriminate
         |intros tx Htx; try discriminate; eauto]).
  - unfold bind, await, throw, ret, console_log.
    destruct sendStandard as [tx2|e3]; cbn;
      (refine (conj _ (conj _ _));
       [intros out e Heq; try discriminate; injection Heq as _ <-; reflexivity
       |discriminate
       |intros tx Htx; try discriminate; eauto]).
Qed.

(** X27.  With no private endpoint handed over by the route stage and a
    [PRIVATE_RPC_URL] that is empty or not taken as private, the submission
    goes through the standard endpoint only: two notice lines, then the
    outcome of the standard submission, whatever key or relay is around. *)
Theorem submitStage_standard_route PRIVATE_RPC_URL PRIVATE_KEY :
  isPrivateRPC PRIVATE_RPC_URL = false ->
  submitStage Tx RpcProvider newJsonRpcProvider sendPrivate sendStandard
    None PRIVATE_RPC_URL PRIVATE_KEY
  = ([ConsoleLog "  Using standard RPC with bundler + slippage protection";
      ConsoleLog "     (Bundler hides address, slippage protects from MEV)"],
     match sendStandard with
     | inl tx => Return tx
     | inr e => Throw e
     end).
Proof.
  intros Hpub. unfold submitStage. cbv zeta. rewrite Hpub, andb_false_r.
  unfold bind, await, console_log. now destruct sendStandard.
Qed.

(** X28.  A private endpoint without a private key is no stop: with
    [PRIVATE_RPC_URL] taken as private and [PRIVATE_KEY] unset or empty, the
    stage reports the missing key as a failure of the private path and
    submits through the standard endpoint. *)
Theorem submitStage_missing_key PRIVATE_RPC_URL PRIVATE_KEY p :
  isPrivateRPC PRIVATE_RPC_URL = true ->
  newJsonRpcProvider PRIVATE_RPC_URL = inl p ->
  PRIVATE_KEY = None \/ PRIVATE_KEY = Some "" ->
  submitStage Tx RpcProvider newJsonRpcProvider sendPrivate sendStandard
    None PRIVATE_RPC_URL PRIVATE_KEY
  = ([ConsoleLog "  Using private RPC for transaction submission...";
      ConsoleLog ("  RPC: " ++ substring 0 60 PRIVATE_RPC_URL ++ "...")%string;
      ConsoleLog "  Private RPC failed, falling back to standard RPC";
      ConsoleLog "  Error: Private key not found. Set PRIVATE_KEY in .env"],
     match sendStandard with
     | inl tx => Return tx
     | inr e => Throw e
     end).
Proof.
  intros Hpriv Hconnect Hkey. unfold submitStage. cbv zeta.
  rewrite Hpriv, (isPrivateRPC_not_empty _ Hpriv). cbn [negb andb].
  unfold try_catch, bind, await, throw, ret, console_log. rewrite Hconnect.
  destruct Hkey as [-> | ->]; cbn; now destruct sendStandard.
Qed.


End SubmitMoreClaims.

Section SubmitMoreRuns.

Import SwapHelpers Orchestrator.

Local Open Scope string_scope.
Local Open Scope Z_scope.
Local Open Scope list_scope.

Lemma submitStage_fails_only_with_standard_witness :
  exists out tx',
    submitStage string unit Sim.connect Sim.relay_rejects Sim.standard_accepts
      None "https://rpc.flashbots.net" (Some "0xkey") = (out, Return tx').
Proof.
  destruct (submitStage_fails_only_with_standard string unit
              Sim.connect Sim.relay_rejects Sim.standard_accepts
              None "https://rpc.flashbots.net" (Some "0xkey")) as (_ & _ & Hok).
  apply (Hok "0xabc"). reflexivity.
Defined.

Lemma submitStage_standard_route_witness :
  submitStage string unit Sim.connect Sim.relay_rejects Sim.standard_rejects
    None "https://rpc.sepolia.org" (Some "0xkey")
  = ([ConsoleLog "  Using standard RPC with bundler + slippage protection";
      ConsoleLog "     (Bundler hides address, slippage protects from MEV)"],
     Throw (CallException "insufficient funds")).
Proof.
  apply (submitStage_standard_route string unit Sim.connect Sim.relay_rejects
           Sim.standard_rejects "https://rpc.sepolia.org" (Some "0xkey")).
  reflexivity.
Defined.

Lemma submitStage_missing_key_witness :
  snd (submitStage string unit Sim.connect Sim.relay_rejects Sim.standard_accepts
         None "https://rpc.flashbots.net" None) = Return "0xabc".
Proof.
  rewrite (submitStage_missing_key string unit Sim.connect Sim.relay_rejects
             Sim.standard_accepts "https://rpc.flashbots.net" None tt);
    [reflexivity|reflexivity|reflexivity|now left].
Defined.


End SubmitMoreRuns.
